(** * A shallow embedding of the table designer back end (src/app.py)

    The Flask application keeps two SQLite databases:
    - [DATABASE] ("database_designer.db"): the live schema, whose catalog
      [sqlite_master] lists the tables and whose [PRAGMA table_info] reports
      their columns;
    - [DESIGN_DB] ("design_storage.db"): the table [table_designs_simple],
      one JSON design per table name.

    The request handlers are modelled as functions from a [world] (both
    databases plus the list of DDL statements sent to the engine) to a
    response and a new world.  JSON values read with [dict.get] are modelled
    by [pyval] together with Python's truthiness, since the handlers test
    them with [if field.get(...)]. *)

From Stdlib Require Import String Ascii List ZArith Bool Lia Permutation.
Import ListNotations.
Open Scope string_scope.

(** ** Python values *)

(** A JSON scalar as the handlers see it after [request.json]; a key that is
    absent is read by [dict.get] as [None], i.e. [VNone]. *)
Inductive pyval : Type :=
| VNone
| VBool (b : bool)
| VInt (z : Z)
| VStr (s : string).

(** Python truthiness: [None], [False], [0] and [""] are false. *)
Definition truthy (v : pyval) : bool :=
  match v with
  | VNone => false
  | VBool b => b
  | VInt z => negb (Z.eqb z 0)
  | VStr s => negb (String.eqb s "")
  end.

(** [dict.get(key, dflt)]: [None] stands for an absent key. *)
Definition get_or (v : option pyval) (dflt : pyval) : pyval :=
  match v with
  | Some x => x
  | None => dflt
  end.

Definition digit_char (d : Z) : ascii := ascii_of_nat (48 + Z.to_nat d).

Fixpoint digits_of (fuel : nat) (z : Z) (acc : string) : string :=
  match fuel with
  | O => acc
  | S f =>
      let acc' := String (digit_char (z mod 10)) acc in
      if Z.eqb (z / 10) 0 then acc' else digits_of f (z / 10) acc'
  end.

(** [str(z)] for a Python int. *)
Definition z_to_string (z : Z) : string :=
  let fuel := S (S (Z.to_nat (Z.log2_up (Z.abs z)))) in
  if Z.ltb z 0 then "-" ++ digits_of fuel (- z) ""
  else digits_of fuel z "".

(** What an f-string interpolation [f"{v}"] prints. *)
Definition py_str (v : pyval) : string :=
  match v with
  | VNone => "None"
  | VBool true => "True"
  | VBool false => "False"
  | VInt z => z_to_string z
  | VStr s => s
  end.

(** ** Designs (the JSON bodies of the requests) *)

(** A field dict: ['name'] and ['type'] are read with [field['...']]; the
    others with [field.get(...)].  [f_nullable] keeps absence apart, since the
    code reads it with [field.get('nullable', True)]. *)
Record field : Type := mk_field {
  f_name : string;
  f_type : string;
  f_length : pyval;
  f_nullable : option pyval;
  f_unique : pyval;
  f_primary : pyval;
  f_default : pyval
}.

(** A table design dict: ['name'], ['comment'], ['fields']. *)
Record design : Type := mk_design {
  d_name : string;
  d_comment : pyval;
  d_fields : list field
}.

Definition field_names (fs : list field) : list string := map f_name fs.

(** ** DDL statements *)

(** One column definition as [create_actual_table] and [add_field] assemble
    it, clause by clause, before it is rendered into the statement text. *)
Record coldef : Type := mk_coldef {
  cd_name : string;
  cd_type : string;
  cd_length : option string;
  cd_notnull : bool;
  cd_unique : bool;
  cd_default : option string
}.

(** The per-field clause of [create_actual_table] (lines 73-89) and of
    [add_field] (lines 375-387): every optional clause is guarded by the
    truthiness of the corresponding [get]. *)
Definition field_clause (f : field) : coldef :=
  {| cd_name := f_name f;
     cd_type := f_type f;
     cd_length := if truthy (f_length f) then Some (py_str (f_length f)) else None;
     cd_notnull := negb (truthy (get_or (f_nullable f) (VBool true)));
     cd_unique := truthy (f_unique f);
     cd_default := if truthy (f_default f) then Some (py_str (f_default f)) else None |}.

(** The text of the clause: [f"{name} {type}"], then [f"({length})"],
    [" NOT NULL"], [" UNIQUE"], [f" DEFAULT {default}"]. *)
Definition render_coldef (c : coldef) : string :=
  cd_name c ++ " " ++ cd_type c
  ++ match cd_length c with Some l => "(" ++ l ++ ")" | None => "" end
  ++ (if cd_notnull c then " NOT NULL" else "")
  ++ (if cd_unique c then " UNIQUE" else "")
  ++ match cd_default c with Some d => " DEFAULT " ++ d | None => "" end.

Definition field_sql (f : field) : string := render_coldef (field_clause f).

Fixpoint join (sep : string) (xs : list string) : string :=
  match xs with
  | [] => ""
  | [x] => x
  | x :: rest => x ++ sep ++ join sep rest
  end.

(** The DDL statements the handlers send to the live database. *)
Inductive stmt : Type :=
| SDrop (t : string)
| SCreate (t : string) (cols : list coldef) (pks : list string)
| SAddColumn (t : string) (c : coldef).

Definition render_stmt (s : stmt) : string :=
  match s with
  | SDrop t => "DROP TABLE " ++ t
  | SCreate t cols pks =>
      "CREATE TABLE " ++ t ++ " ("
      ++ join ", " (map render_coldef cols
                    ++ match pks with
                       | [] => []
                       | _ => ["PRIMARY KEY (" ++ join ", " pks ++ ")"]
                       end)
      ++ ")"
  | SAddColumn t c => "ALTER TABLE " ++ t ++ " ADD COLUMN " ++ render_coldef c
  end.

(** The loop of [create_actual_table] (lines 72-95): one clause per field,
    and the names of the fields whose ['primary'] is truthy, in order. *)
Fixpoint build_fields (fs : list field) : list coldef * list string :=
  match fs with
  | [] => ([], [])
  | f :: rest =>
      let '(cols, pks) := build_fields rest in
      (field_clause f :: cols,
       if truthy (f_primary f) then f_name f :: pks else pks)
  end.

Definition build_create (d : design) : stmt :=
  let '(cols, pks) := build_fields (d_fields d) in
  SCreate (d_name d) cols pks.

(** ** The live database: a model of the SQLite engine

    SQLite is the environment of the code, not part of it; it is modelled for
    the statements the handlers build, with column names taken as written
    (plain identifiers).  Each table is the list of rows that
    [PRAGMA table_info] reports for it.  Python's [sqlite3] module runs DDL
    outside any implicit transaction, so every DDL statement that succeeds is
    committed at once, whatever happens later in the handler. *)

(** One row of [PRAGMA table_info]: [name], [type] (the declared type text),
    [notnull], [dflt_value] and [pk], which is 0 for a column outside the
    primary key and otherwise the 1-based position of the column in it. *)
Record column : Type := mk_column {
  col_name : string;
  col_type : string;
  col_notnull : bool;
  col_default : option string;
  col_pk : nat
}.

(** [sqlite_master] restricted to tables, in creation order. *)
Definition catalog := list (string * list column).

Definition table_exists (cat : catalog) (t : string) : bool :=
  existsb (fun e => String.eqb (fst e) t) cat.

Definition lookup_table (cat : catalog) (t : string) : option (list column) :=
  match find (fun e => String.eqb (fst e) t) cat with
  | Some (_, cols) => Some cols
  | None => None
  end.

Definition remove_table (cat : catalog) (t : string) : catalog :=
  filter (fun e => negb (String.eqb (fst e) t)) cat.

Definition set_table (cat : catalog) (t : string) (cols : list column) : catalog :=
  map (fun e => if String.eqb (fst e) t then (t, cols) else e) cat.

Fixpoint has_dup (xs : list string) : bool :=
  match xs with
  | [] => false
  | x :: rest => existsb (String.eqb x) rest || has_dup rest
  end.

(** 1-based position of a column in the [PRIMARY KEY (...)] list, 0 if absent. *)
Fixpoint pk_index (pks : list string) (n : string) : nat :=
  match pks with
  | [] => 0
  | p :: rest =>
      if String.eqb p n then 1
      else match pk_index rest n with 0 => 0 | k => S k end
  end.

Definition declared_type (c : coldef) : string :=
  cd_type c ++ match cd_length c with Some l => "(" ++ l ++ ")" | None => "" end.

Definition column_of (pks : list string) (c : coldef) : column :=
  {| col_name := cd_name c;
     col_type := declared_type c;
     col_notnull := cd_notnull c;
     col_default := cd_default c;
     col_pk := pk_index pks (cd_name c) |}.

Definition upper_char (a : ascii) : ascii :=
  let n := nat_of_ascii a in
  if ((97 <=? n) && (n <=? 122))%nat then ascii_of_nat (n - 32)%nat else a.

(** [str.upper()] on ASCII letters. *)
Definition py_upper (s : string) : string :=
  string_of_list_ascii (map upper_char (list_ascii_of_string s)).

(** SQLite compares column names without regard to ASCII letter case. *)
Definition same_ident (a b : string) : bool := String.eqb (py_upper a) (py_upper b).

(** A default SQLite cannot evaluate once for the rows already stored: one of
    the CURRENT_ keywords (expression defaults are not parsed here). *)
Definition nonconstant_default (d : string) : bool :=
  existsb (String.eqb (py_upper d)) ["CURRENT_TIME"; "CURRENT_DATE"; "CURRENT_TIMESTAMP"].

(** The effect of one statement on the catalog; [None] is an
    [sqlite3.OperationalError] (the statement is rejected, nothing changes).
    CREATE TABLE needs at least one column, distinct column names and key
    columns among them; ALTER TABLE ADD COLUMN refuses a name the table
    already has in any letter case, a UNIQUE column, and, as SQLite does on a
    table that holds rows (the catalog does not record rows), a NOT NULL
    column without a default and a non-constant default.  Syntax errors of
    the raw text are not modelled. *)
Definition engine_step (cat : catalog) (s : stmt) : option catalog :=
  match s with
  | SDrop t => if table_exists cat t then Some (remove_table cat t) else None
  | SCreate t cols pks =>
      if table_exists cat t then None
      else match cols with
           | [] => None
           | _ =>
               let names := map cd_name cols in
               if has_dup names then None
               else if forallb (fun p => existsb (String.eqb p) names) pks
               then Some (app cat [(t, map (column_of pks) cols)])
               else None
           end
  | SAddColumn t c =>
      match lookup_table cat t with
      | None => None
      | Some cols =>
          if existsb (fun k => same_ident (col_name k) (cd_name c)) cols then None
          else if cd_unique c then None
          else if cd_notnull c && match cd_default c with None => true | Some _ => false end
          then None
          else if match cd_default c with
                  | Some d => nonconstant_default d | None => false end
          then None
          else Some (set_table cat t (app cols [column_of [] c]))
      end
  end.

(** ** The two databases *)

(** [w_designs] is [table_designs_simple]: (table_name, design_data) rows in
    row order.  [w_store_ok] says whether writes to the design database go
    through (a locked or read-only file makes them raise); the table
    [table_designs_simple] is taken to exist, as it does after the first
    [save_table_design].  [w_log] lists the DDL statements sent to the live
    database, accepted or not. *)
Record world : Type := mk_world {
  w_catalog : catalog;
  w_designs : list (string * design);
  w_store_ok : bool;
  w_log : list stmt
}.

Definition set_catalog (w : world) (cat : catalog) : world :=
  mk_world cat (w_designs w) (w_store_ok w) (w_log w).

Definition set_designs (w : world) (ds : list (string * design)) : world :=
  mk_world (w_catalog w) ds (w_store_ok w) (w_log w).

Definition log_stmt (w : world) (s : stmt) : world :=
  mk_world (w_catalog w) (w_designs w) (w_store_ok w) (app (w_log w) [s]).

Definition lookup_design (w : world) (t : string) : option design :=
  match find (fun e => String.eqb (fst e) t) (w_designs w) with
  | Some (_, d) => Some d
  | None => None
  end.

(** [c.execute(ddl)]: the statement is sent; on success the catalog changes. *)
Definition exec_ddl (w : world) (s : stmt) : bool * world :=
  let w1 := log_stmt w s in
  match engine_step (w_catalog w1) s with
  | Some cat => (true, set_catalog w1 cat)
  | None => (false, w1)
  end.

(** ** Handlers' results *)

(** The error bodies of the handlers, by the message they carry. *)
Inductive err_kind : Type :=
| EIncomplete      (* "表设计数据不完整", "字段数据不完整", "... 不能为空" *)
| ETableMissing    (* "表 {table_name} 不存在" *)
| ECreateFailed    (* the message of [create_actual_table]: "创建表失败: ..." *)
| EDesignMissing   (* "找不到表设计数据" *)
| EFieldMissing    (* "字段 {field_name} 不存在" *)
| EException.      (* [str(e)] of an uncaught exception *)

(** A value of a result row ([None], [int] or [str] on the Python side). *)
Inductive sqlval : Type :=
| SNull
| SInt (z : Z)
| SText (s : string).

(** One entry of [table_info['columns']] built by [get_table_structure]. *)
Record column_info : Type := mk_column_info {
  ci_name : string;
  ci_type : string;
  ci_nullable : bool;
  ci_default : option string;
  ci_primary : bool
}.

Record table_info : Type := mk_table_info {
  ti_name : string;
  ti_columns : list column_info;
  ti_primary_keys : list string;
  ti_unique_constraints : list string
}.

(** The JSON bodies: [{'success': True, 'message': ...}],
    [{'success': True, 'table': ..., 'design': ...}],
    [{'success': True, 'results': ..., 'columns': ...}],
    [{'success': True, 'rows_affected': ...}] and
    [{'success': False, 'error': ...}] with its HTTP status. *)
Inductive response : Type :=
| RMessage
| RTable (ti : table_info) (dsg : option design)
| RQuery (results : list (list (string * sqlval))) (columns : list string)
| RAffected (n : Z)
| RError (status : nat) (k : err_kind).

(** ** create_actual_table, save_table_design, get_table_structure *)

(** [create_actual_table] (lines 52-117): drop the table if it exists, then
    run the CREATE TABLE statement.  [save_table_comment] writes to a table
    [table_comments] that nothing creates and ignores the error, so it
    changes neither store.  An exception (a rejected statement) returns
    [False] with the world as it is at that point. *)
Definition create_actual_table (d : design) (w : world) : bool * world :=
  let t := d_name d in
  let '(ok0, w0) :=
    if table_exists (w_catalog w) t then exec_ddl w (SDrop t) else (true, w) in
  if ok0 then exec_ddl w0 (build_create d) else (false, w0).

(** [INSERT OR REPLACE] on a UNIQUE [table_name]: the old row goes, the new
    one is appended. *)
Definition upsert_design (ds : list (string * design)) (t : string) (d : design)
  : list (string * design) :=
  app (filter (fun e => negb (String.eqb (fst e) t)) ds) [(t, d)].

(** [save_table_design] (lines 205-231): a failing write is printed and
    swallowed. *)
Definition save_table_design (d : design) (w : world) : world :=
  if w_store_ok w then set_designs w (upsert_design (w_designs w) (d_name d) d)
  else w.

(** [PRAGMA table_info(t)]: no rows at all for a table that does not exist. *)
Definition pragma_table_info (cat : catalog) (t : string) : list column :=
  match lookup_table cat t with
  | Some cols => cols
  | None => []
  end.

Definition info_of_column (c : column) : column_info :=
  {| ci_name := col_name c;
     ci_type := col_type c;
     ci_nullable := negb (col_notnull c);
     ci_default := col_default c;
     ci_primary := Nat.eqb (col_pk c) 1 |}.

(** [get_table_structure] (lines 136-174).  Its [None] comes from an
    exception, which the pragmas raise only on a name that does not parse;
    for the identifiers of this model it always returns a dict. *)
Definition get_table_structure (w : world) (t : string) : option table_info :=
  let cols := map info_of_column (pragma_table_info (w_catalog w) t) in
  Some {| ti_name := t;
          ti_columns := cols;
          ti_primary_keys := map ci_name (filter ci_primary cols);
          ti_unique_constraints := [] |}.

(** ** The routes *)

(** POST /api/tables ([create_table], lines 182-203). *)
Definition create_table (body : option design) (w : world) : response * world :=
  match body with
  | None => (RError 400 EIncomplete, w)
  | Some d =>
      if String.eqb (d_name d) "" then (RError 400 EIncomplete, w)
      else
        let '(ok, w1) := create_actual_table d w in
        if ok then (RMessage, save_table_design d w1)
        else (RError 400 ECreateFailed, w1)
  end.

(** PUT /api/tables/<table_name> ([update_table], lines 234-267). *)
Definition update_table (t : string) (body : option design) (w : world)
  : response * world :=
  match body with
  | None => (RError 400 EIncomplete, w)
  | Some d =>
      if negb (table_exists (w_catalog w) t) then (RError 404 ETableMissing, w)
      else
        let '(ok, w1) := create_actual_table d w in
        if ok then (RMessage, save_table_design d w1)
        else (RError 400 ECreateFailed, w1)
  end.

(** GET /api/tables/<table_name> ([get_table_detail], lines 327-353). *)
Definition get_table_detail (w : world) (t : string) : response :=
  match get_table_structure w t with
  | None => RError 404 ETableMissing
  | Some ti => RTable ti (lookup_design w t)
  end.

(** The three operations of [update_design_after_field_change]. *)
Inductive field_op : Type :=
| OpAdd (f : field)
| OpDelete (f : field)
| OpUpdate (old_name : string) (f : field).

(** Replace the first field called [n] by [nf]; the flag says whether one was
    found (the loops of lines 420-423 and 495-500). *)
Fixpoint replace_first (n : string) (nf : field) (fs : list field)
  : list field * bool :=
  match fs with
  | [] => ([], false)
  | f :: rest =>
      if String.eqb (f_name f) n then (nf :: rest, true)
      else let '(rest', b) := replace_first n nf rest in (f :: rest', b)
  end.

Definition apply_field_op (op : field_op) (fs : list field) : list field :=
  match op with
  | OpAdd f => app fs [f]
  | OpDelete f => filter (fun g => negb (String.eqb (f_name g) (f_name f))) fs
  | OpUpdate old f => fst (replace_first old f fs)
  end.

Definition with_fields (d : design) (fs : list field) : design :=
  mk_design (d_name d) (d_comment d) fs.

(** [UPDATE ... WHERE table_name = ?]: the row is rewritten in place. *)
Definition replace_design (ds : list (string * design)) (t : string) (d : design)
  : list (string * design) :=
  map (fun e => if String.eqb (fst e) t then (t, d) else e) ds.

(** [update_design_after_field_change] (lines 403-436): nothing happens when
    the table has no stored design; a failing write is printed and
    swallowed. *)
Definition update_design_after_field_change (w : world) (t : string) (op : field_op)
  : world :=
  match lookup_design w t with
  | None => w
  | Some d =>
      let d' := with_fields d (apply_field_op op (d_fields d)) in
      if w_store_ok w then set_designs w (replace_design (w_designs w) t d') else w
  end.

(** POST /api/tables/<table_name>/fields ([add_field], lines 356-401). *)
Definition add_field (t : string) (body : option field) (w : world)
  : response * world :=
  match body with
  | None => (RError 400 EIncomplete, w)
  | Some f =>
      if String.eqb (f_name f) "" then (RError 400 EIncomplete, w)
      else if negb (table_exists (w_catalog w) t) then (RError 404 ETableMissing, w)
      else
        let '(ok, w1) := exec_ddl w (SAddColumn t (field_clause f)) in
        if ok then (RMessage, update_design_after_field_change w1 t (OpAdd f))
        else (RError 500 EException, w1)
  end.

(** DELETE /api/tables/<table_name>/fields/<field_name> ([delete_field],
    lines 439-468). *)
Definition delete_field (t fname : string) (w : world) : response * world :=
  match lookup_design w t with
  | None => (RError 404 EDesignMissing, w)
  | Some d =>
      let d' := with_fields d
                  (filter (fun g => negb (String.eqb (f_name g) fname)) (d_fields d)) in
      let '(ok, w1) := create_actual_table d' w in
      if ok then (RMessage, w1) else (RError 400 ECreateFailed, w1)
  end.

(** PUT /api/tables/<table_name>/fields/<field_name> ([update_field],
    lines 471-514).  The ['old_name'] key the handler adds to the new field is
    read by no statement and is not modelled. *)
Definition update_field (t fname : string) (body : option field) (w : world)
  : response * world :=
  match body with
  | None => (RError 400 EIncomplete, w)
  | Some nf =>
      match lookup_design w t with
      | None => (RError 404 EDesignMissing, w)
      | Some d =>
          let '(fs', found) := replace_first fname nf (d_fields d) in
          if negb found then (RError 404 EFieldMissing, w)
          else
            let '(ok, w1) := create_actual_table (with_fields d fs') w in
            if ok then (RMessage, w1) else (RError 400 ECreateFailed, w1)
      end
  end.

(** ** POST /api/execute-sql *)

(** The cursor after [c.execute(sql)]: the column names of
    [c.description], the rows [c.fetchall()] returns and [c.rowcount]. *)
Record cursor : Type := mk_cursor {
  cur_description : list string;
  cur_rows : list (list sqlval);
  cur_rowcount : Z
}.

(** [str.isspace] on ASCII: tab to carriage return, the separators 28-31
    and space. *)
Definition is_space (a : ascii) : bool :=
  let n := nat_of_ascii a in
  (((9 <=? n) && (n <=? 13)) || ((28 <=? n) && (n <=? 32)))%nat.

Fixpoint drop_spaces (l : list ascii) : list ascii :=
  match l with
  | a :: rest => if is_space a then drop_spaces rest else l
  | [] => []
  end.

(** [str.strip()]. *)
Definition py_strip (s : string) : string :=
  string_of_list_ascii
    (rev (drop_spaces (rev (drop_spaces (list_ascii_of_string s))))).

(** [sql.strip().upper().startswith('SELECT')]. *)
Definition is_select (sql : string) : bool :=
  String.prefix "SELECT" (py_upper (py_strip sql)).

(** [formatted_row[columns[i]] = value] on a dict: an existing key keeps its
    place and takes the new value, a new key goes last. *)
Definition dict_set (k : string) (v : sqlval) (d : list (string * sqlval))
  : list (string * sqlval) :=
  if existsb (fun e => String.eqb (fst e) k) d
  then map (fun e => if String.eqb (fst e) k then (k, v) else e) d
  else app d [(k, v)].

Definition format_row (columns : list string) (row : list sqlval)
  : list (string * sqlval) :=
  fold_left (fun acc cv => dict_set (fst cv) (snd cv) acc) (combine columns row) [].

(** [execute_sql] (lines 517-554); [run] is the engine's answer to
    [c.execute(sql)], [None] when it raises. *)
Definition execute_sql (run : string -> option cursor) (body : option string)
  : response :=
  match body with
  | None => RError 400 EIncomplete
  | Some sql =>
      if String.eqb sql "" then RError 400 EIncomplete
      else match run sql with
           | None => RError 500 EException
           | Some c =>
               if is_select sql
               then RQuery (map (format_row (cur_description c)) (cur_rows c))
                           (cur_description c)
               else RAffected (cur_rowcount c)
           end
  end.

(** ** DELETE /api/tables/<table_name>, GET /api/tables, GET /api/database-status *)

(** [delete_table] (lines 270-299): the DROP is committed as soon as it runs;
    the DELETE on the design database comes after it, and when that write
    raises the handler answers 500 with the table already gone. *)
Definition delete_table (t : string) (w : world) : response * world :=
  if negb (table_exists (w_catalog w) t) then (RError 404 ETableMissing, w)
  else
    let '(ok, w1) := exec_ddl w (SDrop t) in
    if negb ok then (RError 500 EException, w1)
    else if w_store_ok w1
    then (RMessage,
          set_designs w1 (filter (fun e => negb (String.eqb (fst e) t)) (w_designs w1)))
    else (RError 500 EException, w1).

Local Open Scope char_scope.

(** SQLite's [LIKE] without ESCAPE: [%] matches any run of characters, [_]
    any one character, and other characters match case-insensitively on
    ASCII. *)
Fixpoint like_list (p s : list ascii) {struct p} : bool :=
  match p with
  | [] => match s with [] => true | _ :: _ => false end
  | c :: p' =>
      if Ascii.eqb c "%" then
        existsb (fun k => like_list p' (skipn k s)) (seq 0 (S (length s)))
      else if Ascii.eqb c "_" then
        match s with [] => false | _ :: s' => like_list p' s' end
      else
        match s with
        | [] => false
        | c' :: s' => Ascii.eqb (upper_char c) (upper_char c') && like_list p' s'
        end
  end.

Local Close Scope char_scope.

Definition sql_like (s pattern : string) : bool :=
  like_list (list_ascii_of_string pattern) (list_ascii_of_string s).

(** [SELECT name FROM sqlite_master WHERE type='table' AND name NOT LIKE
    'sqlite_%'], shared by [get_all_tables] and [get_database_status]. *)
Definition listed_table_names (cat : catalog) : list string :=
  filter (fun n => negb (sql_like n "sqlite_%")) (map fst cat).

(** [get_all_tables] (lines 302-324): the structure of every listed table,
    kept when it is truthy. *)
Definition get_all_tables (w : world) : list table_info :=
  flat_map (fun n => match get_table_structure w n with
                     | Some ti => [ti]
                     | None => []
                     end)
           (listed_table_names (w_catalog w)).

(** The body of GET /api/database-status. *)
Record db_status : Type := mk_db_status {
  st_tables_count : nat;
  st_tables : list string;
  st_database_size : Z;
  st_last_updated : string
}.

(** [get_database_status] (lines 557-582); the file size
    ([os.path.getsize]) and the clock ([datetime.now().isoformat()]) come
    from outside. *)
Definition get_database_status (w : world) (size : Z) (now : string) : db_status :=
  let tables := listed_table_names (w_catalog w) in
  {| st_tables_count := length tables;
     st_tables := tables;
     st_database_size := size;
     st_last_updated := now |}.

(** ** Invariants of the two stores *)

(** [sqlite_master] holds one table per name. *)
Definition catalog_ok (cat : catalog) : Prop := NoDup (map fst cat).

(** [table_designs_simple] holds one row per table name ([table_name] is
    UNIQUE), and the design stored under a name carries that name. *)
Definition designs_ok (ds : list (string * design)) : Prop :=
  NoDup (map fst ds) /\ Forall (fun e => d_name (snd e) = fst e) ds.

(** A name that the listing query drops: "sqlite", in any letter case,
    followed by at least one character. *)
Definition sqlite_prefixed (n : string) : Prop :=
  exists pre c rest,
    list_ascii_of_string n = app pre (c :: rest) /\
    map upper_char pre = list_ascii_of_string "SQLITE".

(** ** Sample data: the users table of the spec *)

Definition plain_field (n ty : string) : field :=
  mk_field n ty VNone None VNone VNone VNone.

Definition id_field : field :=
  mk_field "id" "INTEGER" VNone None VNone (VBool true) VNone.

Definition email_field : field :=
  mk_field "email" "TEXT" VNone (Some (VBool false)) (VBool true) VNone VNone.

Definition users_design : design :=
  mk_design "users" VNone [id_field; email_field].

Definition empty_world : world := mk_world [] [] true [].

(** The world after POST /api/tables with the users design. *)
Definition users_world : world := snd (create_table (Some users_design) empty_world).

(** The users table with a two-column primary key. *)
Definition pair_design : design :=
  mk_design "pairs" VNone
    [mk_field "a" "INTEGER" VNone None VNone (VBool true) VNone;
     mk_field "b" "INTEGER" VNone None VNone (VBool true) VNone].

(** The field of the spec's AddField example: [{name: "age", type: "INTEGER",
    default: 0}]. *)
Definition age_field : field :=
  mk_field "age" "INTEGER" VNone None VNone VNone (VInt 0).

(** An engine answer for the statement [VALUES (1, 2)]: one row, columns
    [column1] and [column2], and [rowcount] -1 as for every query. *)
Definition values_run (sql : string) : option cursor :=
  Some (mk_cursor ["column1"; "column2"] [[SInt 1; SInt 2]] (-1)).

(** The world of the users example in which writes to the design database
    fail. *)
Definition store_down_world : world := mk_world [] [] false [].


Definition note_field : field := plain_field "note" "TEXT".

(** A user table whose name merely begins with the letters of the
    internal prefix. *)
Definition sqlitedata_world : world :=
  snd (create_table (Some (mk_design "sqlitedata" VNone [plain_field "x" "TEXT"])) users_world).

(** The email field retyped. *)
Definition text_email_field : field := plain_field "email" "VARCHAR".

(** ** Spec-side notions *)

(** The cross-store invariant of the spec: the live column names are the
    design's field names, and the live primary keys are the fields the design
    marks primary. *)
Definition consistent_with (ti : table_info) (d : design) : Prop :=
  (forall n, In n (map ci_name (ti_columns ti)) <-> In n (field_names (d_fields d))) /\
  (forall n, In n (ti_primary_keys ti)
             <-> In n (field_names (filter (fun f => truthy (f_primary f)) (d_fields d)))).

(** Statements that open with a read-only query keyword, in the spec's
    sense: SELECT, VALUES or EXPLAIN. *)
Definition spec_read_only_keywords : list string := ["SELECT"; "VALUES"; "EXPLAIN"].

Definition spec_is_query (sql : string) : bool :=
  existsb (fun k => String.prefix k (py_upper (py_strip sql))) spec_read_only_keywords.

(** ** Sanity checks on the samples *)

Example users_create_sql :
  render_stmt (build_create users_design)
  = "CREATE TABLE users (id INTEGER, email TEXT NOT NULL UNIQUE, PRIMARY KEY (id))".
Proof. reflexivity. Qed.

Example z_to_string_samples :
  map z_to_string [0; 7; 10; 255; -42; 1000]%Z = ["0"; "7"; "10"; "255"; "-42"; "1000"].
Proof. reflexivity. Qed.

Example is_select_samples :
  map is_select ["  select * from users"; "SELECT 1"; "DELETE FROM users"; "VALUES (1)"]
  = [true; true; false; false].
Proof. reflexivity. Qed.

(** ** Facts about the model *)

Lemma remove_table_absent : forall cat t,
  table_exists cat t = false -> remove_table cat t = cat.
Proof.
  induction cat as [|[n cols] rest IH]; intros t H; simpl in *; [reflexivity|].
  apply orb_false_iff in H as [H1 H2]. rewrite H1. simpl. f_equal. auto.
Qed.

Lemma table_exists_remove : forall cat t, table_exists (remove_table cat t) t = false.
Proof.
  induction cat as [|[n cols] rest IH]; intros t; simpl; [reflexivity|].
  destruct (String.eqb n t) eqn:E; simpl; [apply IH|]. rewrite E. apply IH.
Qed.

Lemma remove_table_app_self : forall cat t x,
  remove_table (app cat [(t, x)]) t = remove_table cat t.
Proof.
  intros. unfold remove_table. rewrite filter_app. simpl.
  rewrite String.eqb_refl. simpl. apply app_nil_r.
Qed.

Lemma table_exists_app_self : forall cat t x, table_exists (app cat [(t, x)]) t = true.
Proof.
  intros. unfold table_exists. rewrite existsb_app. simpl.
  rewrite String.eqb_refl. apply orb_true_r.
Qed.

Lemma lookup_table_exists : forall cat t cols,
  lookup_table cat t = Some cols -> table_exists cat t = true.
Proof.
  induction cat as [|[n c] rest IH]; intros t cols H; unfold lookup_table in *; simpl in *;
    [discriminate|].
  destruct (String.eqb n t); [reflexivity|]. simpl. eapply IH. exact H.
Qed.

Lemma lookup_set_table : forall cat t cols cols',
  lookup_table cat t = Some cols -> lookup_table (set_table cat t cols') t = Some cols'.
Proof.
  induction cat as [|[n c] rest IH]; intros t cols cols' H; unfold lookup_table in *;
    simpl in *; [discriminate|].
  destruct (String.eqb n t) eqn:E; simpl.
  - rewrite String.eqb_refl. reflexivity.
  - rewrite E. eapply IH. exact H.
Qed.

Lemma build_fields_cols : forall fs, fst (build_fields fs) = map field_clause fs.
Proof.
  induction fs as [|f rest IH]; simpl; [reflexivity|].
  destruct (build_fields rest) as [cols pks]. simpl in *. congruence.
Qed.

Lemma build_create_eq : forall d,
  build_create d = SCreate (d_name d) (map field_clause (d_fields d))
                           (snd (build_fields (d_fields d))).
Proof.
  intros d. unfold build_create. rewrite <- build_fields_cols.
  destruct (build_fields (d_fields d)); reflexivity.
Qed.

(** A successful CREATE appends exactly one table under the design's name. *)
Lemma engine_create_shape : forall cat d cat',
  engine_step cat (build_create d) = Some cat' ->
  table_exists cat (d_name d) = false /\ exists cols, cat' = app cat [(d_name d, cols)].
Proof.
  intros cat d cat' H. rewrite build_create_eq in H. simpl in H.
  destruct (table_exists cat (d_name d)); [discriminate|].
  destruct (map field_clause (d_fields d)); [discriminate|].
  destruct (has_dup _); [discriminate|].
  destruct (forallb _ _); [|discriminate].
  inversion H. eauto.
Qed.

Lemma exec_ddl_stores : forall w s,
  w_designs (snd (exec_ddl w s)) = w_designs w /\
  w_store_ok (snd (exec_ddl w s)) = w_store_ok w.
Proof.
  intros. unfold exec_ddl. destruct (engine_step _ s); split; reflexivity.
Qed.

(** [create_actual_table] runs the CREATE statement on the catalog without
    the old table, whether or not that table was there; the design store is
    not touched. *)
Lemma create_actual_table_spec : forall d w,
  let base := remove_table (w_catalog w) (d_name d) in
  fst (create_actual_table d w)
    = match engine_step base (build_create d) with Some _ => true | None => false end /\
  w_catalog (snd (create_actual_table d w))
    = match engine_step base (build_create d) with Some c => c | None => base end /\
  w_designs (snd (create_actual_table d w)) = w_designs w /\
  w_store_ok (snd (create_actual_table d w)) = w_store_ok w.
Proof.
  intros d w base. subst base. unfold create_actual_table.
  generalize (build_create d) as s. intro s.
  destruct (table_exists (w_catalog w) (d_name d)) eqn:E.
  - assert (Hd : exec_ddl w (SDrop (d_name d))
                 = (true, set_catalog (log_stmt w (SDrop (d_name d)))
                                      (remove_table (w_catalog w) (d_name d)))).
    { unfold exec_ddl. simpl. rewrite E. reflexivity. }
    rewrite Hd. unfold exec_ddl. simpl.
    destruct (engine_step (remove_table (w_catalog w) (d_name d)) s); repeat split.
  - rewrite (remove_table_absent _ _ E). unfold exec_ddl. simpl.
    destruct (engine_step (w_catalog w) s); repeat split.
Qed.

Lemma save_table_design_catalog : forall d w,
  w_catalog (save_table_design d w) = w_catalog w.
Proof. intros. unfold save_table_design. destruct (w_store_ok w); reflexivity. Qed.

Lemma get_table_structure_catalog : forall w w' t,
  w_catalog w = w_catalog w' -> get_table_structure w t = get_table_structure w' t.
Proof. intros w w' t H. unfold get_table_structure. rewrite H. reflexivity. Qed.

Lemma exec_ddl_log : forall w s, w_log (snd (exec_ddl w s)) = app (w_log w) [s].
Proof. intros. unfold exec_ddl. destruct (engine_step _ s); reflexivity. Qed.

Lemma save_table_design_log : forall d w, w_log (save_table_design d w) = w_log w.
Proof. intros. unfold save_table_design. destruct (w_store_ok w); reflexivity. Qed.

Lemma has_dup_count : forall xs n,
  (2 <= count_occ string_dec xs n)%nat -> has_dup xs = true.
Proof.
  induction xs as [|x rest IH]; intros n H; simpl in *; [lia|].
  destruct (string_dec x n) as [->|Hne].
  - assert (Hin : In n rest) by (apply (count_occ_In string_dec); lia).
    assert (Hex : existsb (String.eqb n) rest = true).
    { apply existsb_exists. exists n. split; [exact Hin | apply String.eqb_refl]. }
    rewrite Hex. reflexivity.
  - rewrite (IH n H). apply orb_true_r.
Qed.

Lemma cd_names_field_clause : forall fs,
  map cd_name (map field_clause fs) = field_names fs.
Proof. intros. unfold field_names. rewrite map_map. reflexivity. Qed.

(** The engine refuses the CREATE statement of a design without fields or
    with a repeated field name. *)
Lemma engine_create_rejects : forall cat d,
  table_exists cat (d_name d) = false ->
  (d_fields d = [] \/ has_dup (field_names (d_fields d)) = true) ->
  engine_step cat (build_create d) = None.
Proof.
  intros cat d Habs Hbad. rewrite build_create_eq. simpl. rewrite Habs.
  destruct Hbad as [Hnil | Hdup].
  - rewrite Hnil. reflexivity.
  - destruct (map field_clause (d_fields d)) as [|c cs] eqn:Hm; [reflexivity|].
    rewrite <- Hm, cd_names_field_clause, Hdup. reflexivity.
Qed.

Lemma dict_set_keys : forall k v d k' v',
  In (k', v') (dict_set k v d) -> k' = k \/ exists v0, In (k', v0) d.
Proof.
  intros k v d k' v' H. unfold dict_set in H.
  destruct (existsb _ d).
  - apply in_map_iff in H as [[k0 v0] [He Hin]]. simpl in He.
    destruct (String.eqb k0 k); inversion He; subst; eauto.
  - apply in_app_or in H as [H | [H | []]]; [eauto|]. inversion H; auto.
Qed.

(** Every key of a formatted row is one of the result's column names. *)
Lemma format_row_keys : forall cols row k v,
  In (k, v) (format_row cols row) -> In k cols.
Proof.
  intros cols row. unfold format_row.
  assert (Hgen : forall l acc,
             (forall k v, In (k, v) acc -> In k cols) ->
             (forall p, In p l -> In (fst p) cols) ->
             forall k v, In (k, v) (fold_left (fun acc cv => dict_set (fst cv) (snd cv) acc) l acc)
                         -> In k cols).
  { induction l as [|p l IH]; intros acc Hacc Hl; simpl; [exact Hacc|].
    apply IH.
    - intros k v Hk. apply dict_set_keys in Hk as [-> | [v0 Hv0]].
      + apply Hl. left. reflexivity.
      + eapply Hacc. exact Hv0.
    - intros q Hq. apply Hl. right. exact Hq. }
  apply Hgen.
  - intros k v [].
  - intros [c x] Hin. simpl. eapply in_combine_l. exact Hin.
Qed.

(** ** The claims *)

(** C1 (code_bug): after a successful RemoveField the live table and the
    stored design disagree.  On the users table, deleting [email] rebuilds the
    table with the column [id] only, while [delete_field] never writes the
    reduced design back, so the stored design still lists [email]. *)
Theorem remove_field_leaves_stale_design :
  let '(r, w1) := delete_field "users" "email" users_world in
  r = RMessage /\
  exists ti d,
    get_table_structure w1 "users" = Some ti /\
    lookup_design w1 "users" = Some d /\
    map ci_name (ti_columns ti) = ["id"] /\
    field_names (d_fields d) = ["id"; "email"] /\
    ~ consistent_with ti d.
Proof.
  vm_compute. split; [reflexivity|].
  eexists; eexists; split; [reflexivity|]. split; [reflexivity|].
  split; [reflexivity|]. split; [reflexivity|].
  intros [Hn _]. destruct (proj2 (Hn "email")) as [H | []].
  - simpl. right. left. reflexivity.
  - discriminate H.
Qed.

(** C2 (code_bug): with a two-column primary key, [Describe] reports only the
    first key column: SQLite's [pk] is the position in the key, and
    [get_table_structure] keeps the columns whose [pk] equals 1. *)
Theorem describe_composite_key_loses_columns :
  let '(r, w1) := create_table (Some pair_design) empty_world in
  r = RMessage /\
  exists ti,
    get_table_structure w1 "pairs" = Some ti /\
    map ci_name (ti_columns ti) = ["a"; "b"] /\
    ti_primary_keys ti = ["a"] /\
    ~ consistent_with ti pair_design.
Proof.
  vm_compute. split; [reflexivity|].
  eexists. split; [reflexivity|]. split; [reflexivity|]. split; [reflexivity|].
  intros [_ Hp]. destruct (proj2 (Hp "b")) as [H | []].
  - simpl. right. left. reflexivity.
  - discriminate H.
Qed.

(** C3 (counterexample): a design without fields is not rejected before
    I/O: on the existing users table, [create_table] drops the table, then the
    engine refuses [CREATE TABLE users ()], and the table is gone. *)
Lemma empty_fields_drop_table :
  let '(r, w1) := create_table (Some (mk_design "users" VNone [])) users_world in
  r = RError 400 ECreateFailed /\
  w_log w1 = app (w_log users_world) [SDrop "users"; SCreate "users" [] []] /\
  table_exists (w_catalog w1) "users" = false.
Proof. vm_compute. repeat split. Qed.

(** C3 (amended): [create_table] checks only that the design has a name.
    Whatever the fields, an existing table of that name is dropped first;
    a design without fields, or with a repeated non-empty field name, then
    makes the CREATE statement fail: the call answers with the creation
    error, the table is absent and the design store is unchanged. *)
Theorem create_table_no_field_validation : forall d w,
  d_name d <> "" ->
  (table_exists (w_catalog w) (d_name d) = true ->
   exists rest, w_log (snd (create_table (Some d) w))
                = app (w_log w) (SDrop (d_name d) :: rest)) /\
  ((d_fields d = [] \/
    exists n, n <> "" /\ (2 <= count_occ string_dec (field_names (d_fields d)) n)%nat) ->
   fst (create_table (Some d) w) = RError 400 ECreateFailed /\
   table_exists (w_catalog (snd (create_table (Some d) w))) (d_name d) = false /\
   w_designs (snd (create_table (Some d) w)) = w_designs w).
Proof.
  intros d w Hname. apply String.eqb_neq in Hname.
  unfold create_table. rewrite Hname. split.
  - intros E.
    assert (Hd : exec_ddl w (SDrop (d_name d))
                 = (true, set_catalog (log_stmt w (SDrop (d_name d)))
                                      (remove_table (w_catalog w) (d_name d)))).
    { unfold exec_ddl. simpl. rewrite E. reflexivity. }
    unfold create_actual_table. rewrite E, Hd.
    pose proof (exec_ddl_log (set_catalog (log_stmt w (SDrop (d_name d)))
                                          (remove_table (w_catalog w) (d_name d)))
                             (build_create d)) as Hl.
    destruct (exec_ddl _ (build_create d)) as [ok w1]. simpl in Hl.
    exists [build_create d].
    destruct ok; simpl; [rewrite save_table_design_log|]; rewrite Hl, <- app_assoc; reflexivity.
  - intros Hbad.
    destruct (create_actual_table_spec d w) as [Hf [Hc [Hds _]]].
    rewrite engine_create_rejects in Hf, Hc.
    2, 4: apply table_exists_remove.
    2, 3: destruct Hbad as [Hnil | [n [_ Hn]]]; [left; exact Hnil | right; eapply has_dup_count; exact Hn].
    destruct (create_actual_table d w) as [ok w1]. simpl in *. subst ok. simpl.
    split; [reflexivity|]. split; [rewrite Hc; apply table_exists_remove | exact Hds].
Qed.

Lemma create_table_no_field_validation_witness :
  d_name (mk_design "users" VNone []) <> "" /\
  fst (create_table (Some (mk_design "users" VNone [])) users_world) = RError 400 ECreateFailed.
Proof.
  assert (Hn : d_name (mk_design "users" VNone []) <> "") by discriminate.
  split; [exact Hn|].
  exact (proj1 (proj2 (create_table_no_field_validation (mk_design "users" VNone [])
                         users_world Hn) (or_introl eq_refl))).
Defined.

(** C4 (code_bug): deleting a field the stored design does not have still
    succeeds, and the users table is dropped and created again. *)
Theorem remove_absent_field_rebuilds :
  let '(r, w1) := delete_field "users" "age" users_world in
  r = RMessage /\
  w_log w1 = app (w_log users_world) [SDrop "users"; build_create users_design] /\
  lookup_design w1 "users" = Some users_design.
Proof. vm_compute. repeat split. Qed.

(** C5 (code_bug): for a table that does not exist, [PRAGMA table_info]
    returns no rows, [get_table_structure] returns a non-empty dict and the
    detail route answers with success and an empty column list. *)
Theorem detail_of_missing_table :
  table_exists (w_catalog users_world) "ghost" = false /\
  get_table_detail users_world "ghost" = RTable (mk_table_info "ghost" [] [] []) None.
Proof. split; reflexivity. Qed.

(** C6 (counterexample): the design store refuses the write, yet creating the
    users table answers with success and records no design. *)
Lemma store_failure_reported_as_success :
  let '(r, w1) := create_table (Some users_design) store_down_world in
  r = RMessage /\ table_exists (w_catalog w1) "users" = true /\
  lookup_design w1 "users" = None.
Proof. vm_compute. repeat split. Qed.

(** C6 (amended): when the DDL of [create_table] succeeds but the write of
    the design fails, the failure is only printed: the call answers with
    success and the design store keeps its previous rows. *)
Theorem create_table_absorbs_store_failure : forall d w,
  w_store_ok w = false ->
  d_name d <> "" ->
  fst (create_actual_table d w) = true ->
  fst (create_table (Some d) w) = RMessage /\
  w_designs (snd (create_table (Some d) w)) = w_designs w.
Proof.
  intros d w Hoff Hname Hok. apply String.eqb_neq in Hname.
  unfold create_table. rewrite Hname.
  destruct (create_actual_table_spec d w) as [_ [_ [Hds Hst]]].
  destruct (create_actual_table d w) as [ok wa]. simpl in *. subst ok.
  unfold save_table_design. rewrite Hst, Hoff. split; [reflexivity | exact Hds].
Qed.

Lemma create_table_absorbs_store_failure_witness :
  w_store_ok store_down_world = false /\
  fst (create_table (Some users_design) store_down_world) = RMessage.
Proof.
  split; [reflexivity|].
  exact (proj1 (create_table_absorbs_store_failure users_design store_down_world
                  eq_refl ltac:(discriminate) ltac:(vm_compute; reflexivity))).
Defined.

(** C7 (code_bug): the default [0] is falsy in Python, so [add_field] leaves
    out the DEFAULT clause: the column [age] has no default, although the
    stored design now has 3 fields. *)
Theorem add_field_drops_zero_default :
  let '(r, w1) := add_field "users" (Some age_field) users_world in
  r = RMessage /\
  field_sql age_field = "age INTEGER" /\
  render_stmt (SAddColumn "users" (field_clause age_field))
    = "ALTER TABLE users ADD COLUMN age INTEGER" /\
  option_map (fun ti => map (fun c => (ci_name c, ci_default c)) (ti_columns ti))
             (get_table_structure w1 "users")
    = Some [("id", None); ("email", None); ("age", None)] /\
  option_map (fun d => length (d_fields d)) (lookup_design w1 "users") = Some 3%nat.
Proof. vm_compute. repeat split. Qed.

(** C8 (counterexample): [VALUES (1, 2)] opens with a read-only query
    keyword and returns a row, but only a SELECT prefix selects the tabular
    answer, so the route answers with the row count -1. *)
Lemma values_query_returns_rowcount :
  spec_is_query "VALUES (1, 2)" = true /\
  execute_sql values_run (Some "VALUES (1, 2)") = RAffected (-1).
Proof. split; reflexivity. Qed.

Lemma dict_set_nodup : forall k v d,
  NoDup (map fst d) -> NoDup (map fst (dict_set k v d)).
Proof.
  intros k v d Hd. unfold dict_set.
  destruct (existsb (fun e => String.eqb (fst e) k) d) eqn:Ex.
  - rewrite map_map.
    replace (map (fun e => fst (if String.eqb (fst e) k then (k, v) else e)) d) with (map fst d);
      [exact Hd|].
    apply map_ext. intros [a b]. simpl. destruct (String.eqb a k) eqn:E; [|reflexivity].
    apply String.eqb_eq in E. exact E.
  - rewrite map_app. simpl. apply NoDup_app; [exact Hd | constructor; [intros []|constructor] |].
    intros x Hx [Hy | []]. subst x.
    apply in_map_iff in Hx as [[a b] [Ha Hin]]. simpl in Ha. subst a.
    assert (existsb (fun e => String.eqb (fst e) k) d = true)
      by (apply existsb_exists; exists (k, b); split; [exact Hin | apply String.eqb_refl]).
    congruence.
Qed.

Lemma dict_set_fresh : forall k v d,
  ~ In k (map fst d) -> dict_set k v d = app d [(k, v)].
Proof.
  intros k v d Hn. unfold dict_set.
  destruct (existsb _ d) eqn:Ex; [|reflexivity].
  apply existsb_exists in Ex as [[a b] [Hin Heq]]. apply String.eqb_eq in Heq. simpl in Heq.
  subst a. exfalso. apply Hn. apply (in_map fst _ _ Hin).
Qed.

Lemma dict_set_entries : forall k v d k' v',
  In (k', v') (dict_set k v d) -> (k', v') = (k, v) \/ In (k', v') d.
Proof.
  intros k v d k' v' H. unfold dict_set in H.
  destruct (existsb _ d).
  - apply in_map_iff in H as [e [He Hin]].
    destruct (String.eqb (fst e) k); [left; symmetry; exact He | right; subst e; exact Hin].
  - apply in_app_or in H as [H | [H | []]]; [right; exact H | left; symmetry; exact H].
Qed.

Lemma format_row_fold : forall l acc,
  NoDup (map fst acc) ->
  NoDup (map fst (fold_left (fun acc cv => dict_set (fst cv) (snd cv) acc) l acc)) /\
  (forall k v, In (k, v) (fold_left (fun acc cv => dict_set (fst cv) (snd cv) acc) l acc) ->
               In (k, v) l \/ In (k, v) acc).
Proof.
  induction l as [|[c x] l IH]; intros acc Hacc; simpl.
  - split; [exact Hacc | intros k v H; right; exact H].
  - destruct (IH (dict_set c x acc) (dict_set_nodup c x acc Hacc)) as [Hn Hin].
    split; [exact Hn|]. intros k v H. apply Hin in H as [H | H]; [left; right; exact H|].
    apply dict_set_entries in H as [H | H]; [left; left; exact (eq_sym H) | right; exact H].
Qed.

Lemma format_row_fold_fresh : forall l acc,
  NoDup (map fst l) ->
  (forall k, In k (map fst l) -> ~ In k (map fst acc)) ->
  fold_left (fun acc cv => dict_set (fst cv) (snd cv) acc) l acc = app acc l.
Proof.
  induction l as [|[c x] l IH]; intros acc Hl Hdis; simpl.
  - rewrite app_nil_r. reflexivity.
  - inversion Hl as [|? ? Hc Hl']; subst.
    rewrite dict_set_fresh by (apply Hdis; left; reflexivity).
    rewrite IH; [rewrite <- app_assoc; reflexivity | exact Hl' |].
    intros k Hk Hin. rewrite map_app in Hin. apply in_app_or in Hin as [Hin | [Hin | []]].
    + apply (Hdis k); [right; exact Hk | exact Hin].
    + simpl in Hin. subst k. apply Hc. exact Hk.
Qed.

Lemma combine_keys_nodup : forall (cols : list string) (row : list sqlval),
  NoDup cols -> NoDup (map fst (combine cols row)).
Proof.
  induction cols as [|c cols IH]; intros row Hc; [constructor|].
  destruct row as [|x row]; [constructor|]. simpl.
  inversion Hc as [|? ? Hn Hc']; subst. constructor; [|exact (IH row Hc')].
  intros Hin. apply in_map_iff in Hin as [[a b] [Ha Hin]]. simpl in Ha. subst a.
  apply Hn. exact (in_combine_l _ _ _ _ Hin).
Qed.

Lemma dict_set_keys_keep : forall k v d k',
  In k' (map fst d) -> In k' (map fst (dict_set k v d)).
Proof.
  intros k v d k' H. unfold dict_set.
  destruct (existsb _ d).
  - apply in_map_iff in H as [[a b] [Ha Hin]]. simpl in Ha. subst a.
    apply in_map_iff. exists (if String.eqb k' k then (k, v) else (k', b)). split.
    + destruct (String.eqb k' k) eqn:E; [apply String.eqb_eq in E; subst; reflexivity | reflexivity].
    + apply in_map_iff. exists (k', b). split; [reflexivity | exact Hin].
  - rewrite map_app. apply in_or_app. left. exact H.
Qed.

Lemma dict_set_keys_new : forall k v d, In k (map fst (dict_set k v d)).
Proof.
  intros k v d. unfold dict_set.
  destruct (existsb (fun e => String.eqb (fst e) k) d) eqn:Ex.
  - apply existsb_exists in Ex as [[a b] [Hin Heq]]. simpl in Heq.
    apply String.eqb_eq in Heq. subst a.
    apply in_map_iff. exists (k, v). split; [reflexivity|].
    apply in_map_iff. exists (k, b). split; [|exact Hin]. simpl. rewrite String.eqb_refl. reflexivity.
  - rewrite map_app. apply in_or_app. right. left. reflexivity.
Qed.

Lemma format_row_fold_keys : forall l acc k,
  In k (map fst l) \/ In k (map fst acc) ->
  In k (map fst (fold_left (fun acc cv => dict_set (fst cv) (snd cv) acc) l acc)).
Proof.
  induction l as [|[c x] l IH]; intros acc k H; simpl in *.
  - destruct H as [[] | H]. exact H.
  - apply IH. destruct H as [[H | H] | H].
    + right. subst c. apply dict_set_keys_new.
    + left. exact H.
    + right. apply dict_set_keys_keep. exact H.
Qed.

Lemma combine_fst : forall (cols : list string) (row : list sqlval),
  length row = length cols -> map fst (combine cols row) = cols.
Proof.
  induction cols as [|c cols IH]; intros row Hl; [reflexivity|].
  destruct row as [|x row]; [discriminate Hl|]. simpl. f_equal. apply IH.
  simpl in Hl. injection Hl as Hl. exact Hl.
Qed.

(** Each dict [format_row] builds from a fetched row whose length is the
    number of result columns: its keys are exactly the column names, none
    repeated; each entry pairs a column name with the value at a position of
    that name; with distinct names it is the columns zipped with the row. *)
Lemma format_row_mapping : forall cols row,
  length row = length cols ->
  NoDup (map fst (format_row cols row)) /\
  (forall k, In k (map fst (format_row cols row)) <-> In k cols) /\
  (forall k v, In (k, v) (format_row cols row) -> In (k, v) (combine cols row)) /\
  (NoDup cols -> format_row cols row = combine cols row).
Proof.
  intros cols row Hl. unfold format_row.
  destruct (format_row_fold (combine cols row) [] (NoDup_nil _)) as [Hn Hin].
  split; [exact Hn|]. split; [|split].
  - intros k. split.
    + intros Hk. apply in_map_iff in Hk as [[a b] [Ha Hk]]. simpl in Ha. subst a.
      apply Hin in Hk as [Hk | []]. exact (in_combine_l _ _ _ _ Hk).
    + intros Hk. apply format_row_fold_keys. left. rewrite combine_fst by exact Hl. exact Hk.
  - intros k v H. apply Hin in H as [H | []]. exact H.
  - intros Hd. rewrite format_row_fold_fresh; [reflexivity | apply combine_keys_nodup; exact Hd |].
    intros k _ [].
Qed.


(** C8 (amended): for a statement the engine runs, a text that starts with
    SELECT once stripped and upper-cased gets the column names of the cursor
    in order and the fetched rows in order, each turned into a mapping whose
    keys are exactly those column names and whose value at a name is the
    row's value at a position of that name (the row zipped with the columns
    when the names are distinct); every other statement, including other
    read-only queries, gets the cursor's row count. *)
Theorem execute_sql_routing : forall run sql c,
  sql <> "" ->
  run sql = Some c ->
  (is_select sql = true ->
   execute_sql run (Some sql)
     = RQuery (map (format_row (cur_description c)) (cur_rows c)) (cur_description c) /\
   (forall row, In row (cur_rows c) -> length row = length (cur_description c) ->
      NoDup (map fst (format_row (cur_description c) row)) /\
      (forall k, In k (map fst (format_row (cur_description c) row))
                 <-> In k (cur_description c)) /\
      (forall k v, In (k, v) (format_row (cur_description c) row) ->
                   In (k, v) (combine (cur_description c) row)) /\
      (NoDup (cur_description c) ->
       format_row (cur_description c) row = combine (cur_description c) row))) /\
  (is_select sql = false ->
   execute_sql run (Some sql) = RAffected (cur_rowcount c)).
Proof.
  intros run sql c Hne Hrun. apply String.eqb_neq in Hne.
  unfold execute_sql. rewrite Hne, Hrun. split; intros Hsel; rewrite Hsel; [|reflexivity].
  split; [reflexivity|]. intros row _ Hl. exact (format_row_mapping _ _ Hl).
Qed.

Lemma execute_sql_routing_witness :
  execute_sql (fun _ => Some (mk_cursor ["id"; "email"]
                                        [[SInt 1; SText "a@x.org"]; [SInt 2; SNull]] (-1)))
              (Some "  select * from users")
  = RQuery [[("id", SInt 1); ("email", SText "a@x.org")]; [("id", SInt 2); ("email", SNull)]]
           ["id"; "email"].
Proof.
  destruct (proj1 (execute_sql_routing
                     (fun _ => Some (mk_cursor ["id"; "email"]
                                               [[SInt 1; SText "a@x.org"]; [SInt 2; SNull]] (-1)))
                     "  select * from users" _ ltac:(discriminate) eq_refl)
                  ltac:(vm_compute; reflexivity)) as [Heq Hrows].
  assert (Hd : NoDup ["id"; "email"])
    by (constructor; [simpl; intros [H | []]; discriminate H | constructor; [intros [] | constructor]]).
  pose proof (proj2 (proj2 (proj2 (Hrows _ (or_introl eq_refl) eq_refl))) Hd) as H1.
  pose proof (proj2 (proj2 (proj2 (Hrows _ (or_intror (or_introl eq_refl)) eq_refl))) Hd) as H2.
  cbn [cur_description cur_rows] in Heq, H1, H2.
  rewrite Heq. cbn [map]. rewrite H1, H2. reflexivity.
Defined.


(** C9: creating a table twice from the same design succeeds the second time
    and leaves the same catalog, hence the same [Describe] result. *)
Theorem create_table_idempotent_shape : forall d w w1,
  create_table (Some d) w = (RMessage, w1) ->
  exists w2,
    create_table (Some d) w1 = (RMessage, w2) /\
    w_catalog w2 = w_catalog w1 /\
    get_table_structure w2 (d_name d) = get_table_structure w1 (d_name d).
Proof.
  intros d w w1 H. unfold create_table in *.
  destruct (String.eqb (d_name d) "") eqn:En; [discriminate|].
  destruct (create_actual_table_spec d w) as [Hf [Hc _]].
  destruct (create_actual_table d w) as [ok wa] eqn:Ea.
  destruct ok; [|discriminate]. inversion H; subst w1. clear H. simpl in Hf, Hc.
  destruct (engine_step (remove_table (w_catalog w) (d_name d)) (build_create d))
    as [cat1|] eqn:Es; [|discriminate].
  destruct (engine_create_shape _ _ _ Es) as [Habs [cols Hcat1]].
  destruct (create_actual_table_spec d (save_table_design d wa)) as [Hf2 [Hc2 _]].
  rewrite save_table_design_catalog, Hc, Hcat1, remove_table_app_self,
    (remove_table_absent _ _ Habs), Es in Hf2, Hc2.
  destruct (create_actual_table d (save_table_design d wa)) as [ok2 wb]. simpl in Hf2, Hc2.
  subst ok2. exists (save_table_design d wb). split; [reflexivity|].
  assert (Hcat : w_catalog (save_table_design d wb) = w_catalog (save_table_design d wa)).
  { rewrite !save_table_design_catalog, Hc2, Hc. reflexivity. }
  split; [exact Hcat | apply get_table_structure_catalog; exact Hcat].
Qed.

Lemma create_table_idempotent_shape_witness :
  create_table (Some users_design) empty_world = (RMessage, users_world) /\
  exists w2, create_table (Some users_design) users_world = (RMessage, w2) /\
             w_catalog w2 = w_catalog users_world /\
             get_table_structure w2 "users" = get_table_structure users_world "users".
Proof.
  assert (H1 : create_table (Some users_design) empty_world = (RMessage, users_world))
    by (vm_compute; reflexivity).
  split; [exact H1|].
  exact (create_table_idempotent_shape users_design empty_world users_world H1).
Defined.

Lemma engine_add_shape : forall cat t c cat',
  engine_step cat (SAddColumn t c) = Some cat' ->
  exists cols, lookup_table cat t = Some cols /\
               cat' = set_table cat t (app cols [column_of [] c]).
Proof.
  intros cat t c cat' H. simpl in H.
  destruct (lookup_table cat t) as [cols|]; [|discriminate].
  exists cols. split; [reflexivity|].
  destruct (existsb _ cols); [discriminate|].
  destruct (cd_unique c); [discriminate|].
  destruct (cd_notnull c && _); [discriminate|].
  destruct (match cd_default c with Some d => nonconstant_default d | None => false end);
    [discriminate|].
  injection H as H. symmetry. exact H.
Qed.




(** ** Further properties of the handlers *)

Lemma nodup_keys_filter : forall (A : Type) (P : string * A -> bool) l,
  NoDup (map fst l) -> NoDup (map fst (filter P l)).
Proof.
  intros A P l. induction l as [|[k x] rest IH]; intros H; simpl; [constructor|].
  inversion H as [|? ? Hnin Hnd]; subst.
  destruct (P (k, x)); simpl; [|apply IH; exact Hnd].
  constructor; [|apply IH; exact Hnd].
  intros Hin. apply Hnin. apply in_map_iff in Hin as [[k' y] [Hk Hy]].
  simpl in Hk. subst k'. apply filter_In in Hy as [Hy _].
  apply in_map_iff. exists (k, y). auto.
Qed.

Lemma not_in_keys_filter : forall (A : Type) (l : list (string * A)) t,
  ~ In t (map fst (filter (fun e => negb (String.eqb (fst e) t)) l)).
Proof.
  intros A l t Hin. apply in_map_iff in Hin as [[k x] [Hk Hx]]. simpl in Hk. subst k.
  apply filter_In in Hx as [_ Hx]. simpl in Hx. rewrite String.eqb_refl in Hx. discriminate.
Qed.

Lemma nodup_keys_snoc : forall (A : Type) (l : list (string * A)) t x,
  NoDup (map fst l) -> ~ In t (map fst l) -> NoDup (map fst (app l [(t, x)])).
Proof.
  intros A l t x Hnd Hnin. rewrite map_app. simpl.
  apply (Permutation_NoDup (l := t :: map fst l)).
  - apply Permutation_cons_append.
  - constructor; assumption.
Qed.

Lemma table_exists_false_not_in : forall cat t,
  table_exists cat t = false -> ~ In t (map fst cat).
Proof.
  intros cat t H Hin. apply in_map_iff in Hin as [e [He Hin]].
  assert (Hx : table_exists cat t = true).
  { apply existsb_exists. exists e. split; [exact Hin|]. rewrite He. apply String.eqb_refl. }
  congruence.
Qed.

Lemma set_table_keys : forall cat t cols, map fst (set_table cat t cols) = map fst cat.
Proof.
  induction cat as [|[k x] rest IH]; intros t cols; simpl; [reflexivity|].
  destruct (String.eqb k t) eqn:E; simpl; rewrite IH; [apply String.eqb_eq in E; subst|];
    reflexivity.
Qed.

Lemma engine_step_ok : forall cat s cat',
  catalog_ok cat -> engine_step cat s = Some cat' -> catalog_ok cat'.
Proof.
  unfold catalog_ok. intros cat s cat' Hok H. destruct s as [t | t cols pks | t c]; simpl in H.
  - destruct (table_exists cat t); inversion H. apply nodup_keys_filter. exact Hok.
  - destruct (table_exists cat t) eqn:E; [discriminate|].
    destruct cols; [discriminate|].
    destruct (has_dup _); [discriminate|]. destruct (forallb _ _); [|discriminate].
    inversion H. apply nodup_keys_snoc; [exact Hok | apply table_exists_false_not_in; exact E].
  - destruct (lookup_table cat t); [|discriminate].
    destruct (existsb _ _); [discriminate|]. destruct (cd_unique c); [discriminate|].
    destruct (_ && _); [discriminate|].
    destruct (match cd_default c with Some d => nonconstant_default d | None => false end);
      [discriminate|].
    inversion H. rewrite set_table_keys. exact Hok.
Qed.

Lemma exec_ddl_ok : forall w s,
  catalog_ok (w_catalog w) -> catalog_ok (w_catalog (snd (exec_ddl w s))).
Proof.
  intros w s Hok. unfold exec_ddl.
  destruct (engine_step _ s) eqn:E; simpl; [|exact Hok].
  eapply engine_step_ok; [|exact E]. exact Hok.
Qed.

Lemma create_actual_table_ok : forall d w,
  catalog_ok (w_catalog w) -> catalog_ok (w_catalog (snd (create_actual_table d w))).
Proof.
  intros d w Hok. destruct (create_actual_table_spec d w) as [_ [Hc _]]. rewrite Hc.
  assert (Hb : catalog_ok (remove_table (w_catalog w) (d_name d)))
    by (apply nodup_keys_filter; exact Hok).
  destruct (engine_step _ _) eqn:E; [|exact Hb]. eapply engine_step_ok; eassumption.
Qed.

Lemma update_design_catalog : forall w t op,
  w_catalog (update_design_after_field_change w t op) = w_catalog w.
Proof.
  intros. unfold update_design_after_field_change.
  destruct (lookup_design w t); [destruct (w_store_ok w)|]; reflexivity.
Qed.

(** X1: no handler ever leaves two live tables with one name. *)
Theorem handlers_keep_catalog_ok : forall w t n (bd : option design) (bf : option field),
  catalog_ok (w_catalog w) ->
  catalog_ok (w_catalog (snd (create_table bd w))) /\
  catalog_ok (w_catalog (snd (update_table t bd w))) /\
  catalog_ok (w_catalog (snd (delete_table t w))) /\
  catalog_ok (w_catalog (snd (add_field t bf w))) /\
  catalog_ok (w_catalog (snd (delete_field t n w))) /\
  catalog_ok (w_catalog (snd (update_field t n bf w))).
Proof.
  intros w t n bd bf Hok.
  assert (Hcr : forall d w, catalog_ok (w_catalog w) ->
            catalog_ok (w_catalog (snd (let '(ok, w1) := create_actual_table d w in
                                        if ok then (RMessage, save_table_design d w1)
                                        else (RError 400 ECreateFailed, w1))))).
  { intros d w0 H0. pose proof (create_actual_table_ok d w0 H0) as Hc.
    destruct (create_actual_table d w0) as [[|] w1]; simpl in *;
      [rewrite save_table_design_catalog|]; exact Hc. }
  repeat split.
  - unfold create_table. destruct bd as [d|]; [|exact Hok].
    destruct (String.eqb _ _); [exact Hok|]. apply Hcr. exact Hok.
  - unfold update_table. destruct bd as [d|]; [|exact Hok].
    destruct (negb _); [exact Hok|]. apply Hcr. exact Hok.
  - unfold delete_table. destruct (negb _); [exact Hok|].
    pose proof (exec_ddl_ok w (SDrop t) Hok) as Hc.
    destruct (exec_ddl w (SDrop t)) as [[|] w1]; simpl in *; [|exact Hc].
    destruct (w_store_ok w1); exact Hc.
  - unfold add_field. destruct bf as [f|]; [|exact Hok].
    destruct (String.eqb _ _); [exact Hok|]. destruct (negb _); [exact Hok|].
    pose proof (exec_ddl_ok w (SAddColumn t (field_clause f)) Hok) as Hc.
    destruct (exec_ddl _ _) as [[|] w1]; simpl in *; [rewrite update_design_catalog|];
      exact Hc.
  - unfold delete_field. destruct (lookup_design w t) as [d|]; [|exact Hok].
    match goal with |- context [create_actual_table ?d' w] =>
      pose proof (create_actual_table_ok d' w Hok) as Hc;
      destruct (create_actual_table d' w) as [[|] w1] end; exact Hc.
  - unfold update_field. destruct bf as [f|]; [|exact Hok].
    destruct (lookup_design w t) as [d|]; [|exact Hok].
    destruct (replace_first n f (d_fields d)) as [fs' [|]]; simpl; [|exact Hok].
    pose proof (create_actual_table_ok (with_fields d fs') w Hok) as Hc.
    destruct (create_actual_table (with_fields d fs') w) as [[|] w1]; exact Hc.
Qed.

Lemma handlers_keep_catalog_ok_witness :
  catalog_ok (w_catalog users_world) /\
  catalog_ok (w_catalog (snd (add_field "users" (Some age_field) users_world))).
Proof.
  assert (H : catalog_ok (w_catalog users_world)).
  { vm_compute. constructor; [intros [] | constructor]. }
  split; [exact H|].
  exact (proj1 (proj2 (proj2 (proj2 (handlers_keep_catalog_ok users_world "users" "age"
                                      None (Some age_field) H))))).
Defined.

Lemma forall_filter : forall (A : Type) (P : A -> Prop) (f : A -> bool) l,
  Forall P l -> Forall P (filter f l).
Proof.
  intros A P f l H. rewrite Forall_forall in *. intros x Hx.
  apply filter_In in Hx as [Hx _]. exact (H x Hx).
Qed.

Lemma upsert_design_ok : forall ds d,
  designs_ok ds -> designs_ok (upsert_design ds (d_name d) d).
Proof.
  intros ds d [Hnd Hf]. unfold upsert_design. split.
  - apply nodup_keys_snoc; [apply nodup_keys_filter; exact Hnd | apply not_in_keys_filter].
  - apply Forall_app. split; [apply forall_filter; exact Hf | constructor; reflexivity || constructor].
Qed.

Lemma replace_design_keys : forall ds t d,
  map fst (replace_design ds t d) = map fst ds.
Proof.
  induction ds as [|[k x] rest IH]; intros t d; simpl; [reflexivity|].
  destruct (String.eqb k t) eqn:E; simpl; rewrite IH; [apply String.eqb_eq in E; subst|];
    reflexivity.
Qed.

Lemma replace_design_ok : forall ds t d,
  designs_ok ds -> d_name d = t -> designs_ok (replace_design ds t d).
Proof.
  intros ds t d [Hnd Hf] Hn. split; [rewrite replace_design_keys; exact Hnd|].
  apply Forall_forall. intros e He. unfold replace_design in He.
  apply in_map_iff in He as [e0 [<- He0]].
  destruct (String.eqb (fst e0) t); [exact Hn|].
  rewrite Forall_forall in Hf. apply Hf. exact He0.
Qed.

Lemma lookup_design_name : forall w t d,
  designs_ok (w_designs w) -> lookup_design w t = Some d -> d_name d = t.
Proof.
  intros w t d [_ Hf] H. unfold lookup_design in H.
  destruct (find _ (w_designs w)) as [[k x]|] eqn:E; [|discriminate].
  inversion H; subst x. apply find_some in E as [Hin Heq]. simpl in Heq.
  apply String.eqb_eq in Heq. subst k. rewrite Forall_forall in Hf. exact (Hf _ Hin).
Qed.

Lemma update_design_ok : forall w t op,
  designs_ok (w_designs w) -> designs_ok (w_designs (update_design_after_field_change w t op)).
Proof.
  intros w t op Hok. unfold update_design_after_field_change.
  destruct (lookup_design w t) as [d|] eqn:E; [|exact Hok].
  destruct (w_store_ok w); [|exact Hok]. simpl.
  apply replace_design_ok; [exact Hok|]. simpl. eapply lookup_design_name; eassumption.
Qed.

Lemma save_table_design_ok : forall d w,
  designs_ok (w_designs w) -> designs_ok (w_designs (save_table_design d w)).
Proof.
  intros d w Hok. unfold save_table_design. destruct (w_store_ok w); [|exact Hok].
  apply upsert_design_ok. exact Hok.
Qed.

(** X2: no handler ever leaves two design rows for one table name, and a
    stored design always carries the name it is stored under. *)
Theorem handlers_keep_designs_ok : forall w t n (bd : option design) (bf : option field),
  designs_ok (w_designs w) ->
  designs_ok (w_designs (snd (create_table bd w))) /\
  designs_ok (w_designs (snd (update_table t bd w))) /\
  designs_ok (w_designs (snd (delete_table t w))) /\
  designs_ok (w_designs (snd (add_field t bf w))) /\
  designs_ok (w_designs (snd (delete_field t n w))) /\
  designs_ok (w_designs (snd (update_field t n bf w))).
Proof.
  intros w t n bd bf Hok.
  assert (Hca : forall d w, designs_ok (w_designs w) ->
            designs_ok (w_designs (snd (create_actual_table d w)))).
  { intros d w0 H0. destruct (create_actual_table_spec d w0) as [_ [_ [Hd _]]].
    rewrite Hd. exact H0. }
  assert (Hcr : forall d w, designs_ok (w_designs w) ->
            designs_ok (w_designs (snd (let '(ok, w1) := create_actual_table d w in
                                        if ok then (RMessage, save_table_design d w1)
                                        else (RError 400 ECreateFailed, w1))))).
  { intros d w0 H0. pose proof (Hca d w0 H0) as Hc.
    destruct (create_actual_table d w0) as [[|] w1]; simpl in *;
      [apply save_table_design_ok|]; exact Hc. }
  split; [|split; [|split; [|split; [|split]]]].
  - unfold create_table. destruct bd as [d|]; [|exact Hok].
    destruct (String.eqb _ _); [exact Hok|]. apply Hcr. exact Hok.
  - unfold update_table. destruct bd as [d|]; [|exact Hok].
    destruct (negb _); [exact Hok|]. apply Hcr. exact Hok.
  - unfold delete_table. destruct (negb _); [exact Hok|].
    destruct (exec_ddl_stores w (SDrop t)) as [Hd _].
    destruct (exec_ddl w (SDrop t)) as [[|] w1]; simpl in *; [|rewrite Hd; exact Hok].
    destruct (w_store_ok w1); simpl; rewrite Hd; [|exact Hok].
    destruct Hok as [Hnd Hf]. split; [apply nodup_keys_filter; exact Hnd|].
    apply forall_filter. exact Hf.
  - unfold add_field. destruct bf as [f|]; [|exact Hok].
    destruct (String.eqb _ _); [exact Hok|]. destruct (negb _); [exact Hok|].
    destruct (exec_ddl_stores w (SAddColumn t (field_clause f))) as [Hd _].
    destruct (exec_ddl _ _) as [[|] w1]; simpl in *; [apply update_design_ok|];
      rewrite Hd; exact Hok.
  - unfold delete_field. destruct (lookup_design w t) as [d|]; [|exact Hok].
    match goal with |- context [create_actual_table ?d' w] =>
      pose proof (Hca d' w Hok) as Hc;
      destruct (create_actual_table d' w) as [[|] w1] end; exact Hc.
  - unfold update_field. destruct bf as [f|]; [|exact Hok].
    destruct (lookup_design w t) as [d|]; [|exact Hok].
    destruct (replace_first n f (d_fields d)) as [fs' [|]]; simpl; [|exact Hok].
    pose proof (Hca (with_fields d fs') w Hok) as Hc.
    destruct (create_actual_table (with_fields d fs') w) as [[|] w1]; exact Hc.
Qed.

Lemma handlers_keep_designs_ok_witness :
  designs_ok (w_designs users_world) /\
  designs_ok (w_designs (snd (add_field "users" (Some age_field) users_world))).
Proof.
  assert (H : designs_ok (w_designs users_world)).
  { vm_compute. split; [constructor; [intros [] | constructor] | repeat constructor]. }
  split; [exact H|].
  exact (proj1 (proj2 (proj2 (proj2 (handlers_keep_designs_ok users_world "users" "age"
                                      None (Some age_field) H))))).
Defined.

Lemma find_key_filter : forall (A : Type) (l : list (string * A)) t u,
  find (fun e => String.eqb (fst e) u) (filter (fun e => negb (String.eqb (fst e) t)) l)
  = if String.eqb u t then None else find (fun e => String.eqb (fst e) u) l.
Proof.
  intros A l t u. induction l as [|[k x] rest IH]; simpl.
  - destruct (String.eqb u t); reflexivity.
  - destruct (String.eqb k t) eqn:Ekt; simpl; rewrite IH;
      destruct (String.eqb u t) eqn:Eut; try reflexivity;
      destruct (String.eqb k u) eqn:Eku; try reflexivity;
      apply String.eqb_eq in Eku; subst k;
      [rewrite Ekt in Eut | rewrite Eut in Ekt]; discriminate.
Qed.

Lemma find_key_snoc : forall (A : Type) (l : list (string * A)) u x t,
  u <> t ->
  find (fun e => String.eqb (fst e) t) (app l [(u, x)]) = find (fun e => String.eqb (fst e) t) l.
Proof.
  intros A l u x t Hne. induction l as [|[k y] rest IH]; simpl.
  - destruct (String.eqb_spec u t); [congruence | reflexivity].
  - destruct (String.eqb k t); [reflexivity | exact IH].
Qed.

Lemma lookup_table_other : forall cat d cat' t,
  d_name d <> t ->
  engine_step (remove_table cat (d_name d)) (build_create d) = Some cat' ->
  lookup_table cat' t = lookup_table cat t.
Proof.
  intros cat d cat' t Hne H. apply engine_create_shape in H as [_ [cols ->]].
  unfold lookup_table. rewrite find_key_snoc by exact Hne.
  unfold remove_table. rewrite find_key_filter.
  destruct (String.eqb_spec t (d_name d)); [congruence | reflexivity].
Qed.

(** X3: DELETE /api/tables/<t> on an existing table drops it before anything
    else.  When the design database accepts the write, the design row of [t]
    goes and the other rows stay; when it refuses, the route answers 500 but
    the table is gone all the same and the design rows are unchanged. *)
Theorem delete_table_effect : forall t w,
  table_exists (w_catalog w) t = true ->
  let '(r, w1) := delete_table t w in
  w_catalog w1 = remove_table (w_catalog w) t /\
  (w_store_ok w = true ->
   r = RMessage /\ lookup_design w1 t = None /\
   (forall u, u <> t -> lookup_design w1 u = lookup_design w u)) /\
  (w_store_ok w = false -> r = RError 500 EException /\ w_designs w1 = w_designs w).
Proof.
  intros t w E. unfold delete_table. rewrite E. simpl negb. cbv iota.
  assert (Hd : exec_ddl w (SDrop t)
               = (true, set_catalog (log_stmt w (SDrop t)) (remove_table (w_catalog w) t))).
  { unfold exec_ddl. simpl. rewrite E. reflexivity. }
  rewrite Hd. simpl negb. cbv iota.
  change (w_store_ok (set_catalog (log_stmt w (SDrop t)) (remove_table (w_catalog w) t)))
    with (w_store_ok w).
  destruct (w_store_ok w) eqn:Hs; simpl.
  - split; [reflexivity|]. split; [|intros H; discriminate H].
    intros _. unfold lookup_design. simpl. split; [reflexivity|].
    split.
    + rewrite find_key_filter, String.eqb_refl. reflexivity.
    + intros u Hu. rewrite find_key_filter.
      destruct (String.eqb_spec u t); [congruence | reflexivity].
  - split; [reflexivity|]. split; [intros H; discriminate H|]. intros _. split; reflexivity.
Qed.

Lemma delete_table_effect_witness :
  table_exists (w_catalog users_world) "users" = true /\
  fst (delete_table "users" users_world) = RMessage.
Proof.
  assert (E : table_exists (w_catalog users_world) "users" = true) by (vm_compute; reflexivity).
  split; [exact E|].
  pose proof (delete_table_effect "users" users_world E) as H.
  destruct (delete_table "users" users_world) as [r w1].
  destruct H as [_ [Hok _]]. exact (proj1 (Hok eq_refl)).
Defined.

(** X4: PUT /api/tables/<t> rebuilds the table named in the body, not [t]:
    when the body names another table, the live table [t] and its design row
    are left exactly as they were. *)
Theorem update_table_uses_body_name : forall t d w,
  d_name d <> t ->
  lookup_table (w_catalog (snd (update_table t (Some d) w))) t = lookup_table (w_catalog w) t /\
  lookup_design (snd (update_table t (Some d) w)) t = lookup_design w t.
Proof.
  intros t d w Hne. unfold update_table.
  destruct (negb _); [split; reflexivity|].
  destruct (create_actual_table_spec d w) as [_ [Hc [Hd _]]].
  destruct (create_actual_table d w) as [ok w1]. simpl in Hc, Hd.
  assert (Hcat : lookup_table (w_catalog w1) t = lookup_table (w_catalog w) t).
  { rewrite Hc. destruct (engine_step _ _) eqn:Es.
    - eapply lookup_table_other; eassumption.
    - unfold lookup_table, remove_table. rewrite find_key_filter.
      destruct (String.eqb_spec t (d_name d)); [congruence | reflexivity]. }
  assert (Hdes : lookup_design w1 t = lookup_design w t) by (unfold lookup_design; rewrite Hd; reflexivity).
  destruct ok; simpl; [|split; assumption].
  rewrite save_table_design_catalog. split; [exact Hcat|].
  unfold save_table_design. destruct (w_store_ok w1); [|exact Hdes].
  unfold lookup_design, upsert_design. simpl.
  rewrite find_key_snoc by (intros H; apply Hne; exact H).
  rewrite find_key_filter. destruct (String.eqb_spec t (d_name d)); [congruence|].
  exact Hdes.
Qed.

Lemma update_table_uses_body_name_witness :
  d_name pair_design <> "users" /\
  lookup_table (w_catalog (snd (update_table "users" (Some pair_design) users_world))) "users"
  = lookup_table (w_catalog users_world) "users".
Proof.
  assert (H : d_name pair_design <> "users") by discriminate.
  split; [exact H|].
  exact (proj1 (update_table_uses_body_name "users" pair_design users_world H)).
Defined.

Lemma like_trailing_percent : forall s,
  existsb (fun k => like_list [] (skipn k s)) (seq 0 (S (length s))) = true.
Proof.
  intros s. apply existsb_exists. exists (length s). split.
  - apply in_seq. lia.
  - rewrite skipn_all. reflexivity.
Qed.

(** [name LIKE 'sqlite_%'] holds exactly for the names that start with
    "sqlite", in any letter case, followed by at least one character. *)
Lemma sql_like_sqlite_prefix : forall n,
  sql_like n "sqlite_%" = true <-> sqlite_prefixed n.
Proof.
  intros n. unfold sql_like, sqlite_prefixed.
  generalize (list_ascii_of_string n) as s. intro s. split.
  - intros H.
    destruct s as [|c1 [|c2 [|c3 [|c4 [|c5 [|c6 [|c7 rest]]]]]]];
      cbn in H; repeat rewrite andb_false_r in H; try discriminate H.
    repeat (apply andb_prop in H as [? H]).
    exists [c1; c2; c3; c4; c5; c6], c7, rest. split; [reflexivity|].
    repeat match goal with Hx : Ascii.eqb _ _ = true |- _ =>
             apply Ascii.eqb_eq in Hx end.
    cbn. repeat match goal with Hx : _ = upper_char _ |- _ => rewrite <- Hx; clear Hx end.
    reflexivity.
  - intros [pre [c [rest [-> Hup]]]].
    destruct pre as [|c1 [|c2 [|c3 [|c4 [|c5 [|c6 [|c7 pre]]]]]]]; try discriminate Hup.
    cbn in Hup. injection Hup as H1 H2 H3 H4 H5 H6.
    cbn. rewrite H1, H2, H3, H4, H5, H6. cbn. apply like_trailing_percent.
Qed.

Lemma get_all_tables_names : forall w,
  map ti_name (get_all_tables w) = listed_table_names (w_catalog w).
Proof.
  intros w. unfold get_all_tables.
  induction (listed_table_names (w_catalog w)) as [|n rest IH]; [reflexivity|].
  simpl. f_equal. exact IH.
Qed.

(** X5: GET /api/tables lists a live table exactly when its name is not
    "sqlite" (any letter case) followed by at least one more character; such
    user tables (e.g. "sqlitedata" or "SQLite1") are left out. *)
Theorem get_all_tables_lists : forall w n,
  In n (map fst (w_catalog w)) ->
  (In n (map ti_name (get_all_tables w)) <-> ~ sqlite_prefixed n).
Proof.
  intros w n Hin. rewrite get_all_tables_names. unfold listed_table_names.
  rewrite filter_In, <- sql_like_sqlite_prefix. split.
  - intros [_ H] Hl. rewrite Hl in H. discriminate H.
  - intros H. split; [exact Hin|]. destruct (sql_like n "sqlite_%"); [|reflexivity].
    exfalso. apply H. reflexivity.
Qed.

Lemma get_all_tables_lists_witness :
  In "sqlitedata" (map fst (w_catalog sqlitedata_world)) /\
  ~ In "sqlitedata" (map ti_name (get_all_tables sqlitedata_world)).
Proof.
  assert (Hin : In "sqlitedata" (map fst (w_catalog sqlitedata_world))).
  { vm_compute. right. left. reflexivity. }
  split; [exact Hin|].
  intros H. apply (proj1 (get_all_tables_lists sqlitedata_world "sqlitedata" Hin) H).
  exists (list_ascii_of_string "sqlite"), "d"%char, (list_ascii_of_string "ata").
  split; reflexivity.
Defined.

(** X6: GET /api/database-status reports the same tables, in the same order,
    as GET /api/tables, and [tables_count] is their number. *)
Theorem database_status_matches_listing : forall w size now,
  st_tables (get_database_status w size now) = map ti_name (get_all_tables w) /\
  st_tables_count (get_database_status w size now) = length (get_all_tables w).
Proof.
  intros w size now. simpl. rewrite get_all_tables_names. split; [reflexivity|].
  rewrite <- get_all_tables_names, length_map. reflexivity.
Qed.

Lemma engine_create_table : forall cat d cat',
  engine_step cat (build_create d) = Some cat' ->
  cat' = app cat [(d_name d, map (column_of (snd (build_fields (d_fields d))))
                                (map field_clause (d_fields d)))].
Proof.
  intros cat d cat' H. rewrite build_create_eq in H. simpl in H.
  destruct (table_exists cat (d_name d)); [discriminate|].
  destruct (map field_clause (d_fields d)) as [|c cs] eqn:Hm; [discriminate|].
  destruct (has_dup _); [discriminate|].
  destruct (forallb _ _); [|discriminate]. inversion H. reflexivity.
Qed.

Lemma lookup_table_snoc_absent : forall cat t x,
  table_exists cat t = false -> lookup_table (app cat [(t, x)]) t = Some x.
Proof.
  induction cat as [|[k y] rest IH]; intros t x H; unfold lookup_table in *; simpl in *.
  - rewrite String.eqb_refl. reflexivity.
  - apply orb_false_iff in H as [H1 H2]. rewrite H1. apply IH. exact H2.
Qed.

(** After a successful [create_actual_table] the table carries one column per
    field of the design, named after it, in order. *)
Lemma create_actual_table_columns : forall d w w1,
  create_actual_table d w = (true, w1) ->
  exists cols, lookup_table (w_catalog w1) (d_name d) = Some cols /\
               map col_name cols = field_names (d_fields d).
Proof.
  intros d w w1 H. destruct (create_actual_table_spec d w) as [Hf [Hc _]].
  rewrite H in Hf, Hc. simpl in Hf, Hc.
  destruct (engine_step _ (build_create d)) as [cat'|] eqn:Es; [|discriminate].
  destruct (engine_create_shape _ _ _ Es) as [Habs _].
  apply engine_create_table in Es. rewrite Hc, Es.
  eexists. split; [apply lookup_table_snoc_absent; exact Habs|].
  unfold field_names. rewrite !map_map. reflexivity.
Qed.

Lemma field_names_filter : forall fs n,
  field_names (filter (fun g => negb (String.eqb (f_name g) n)) fs)
  = filter (fun m => negb (String.eqb m n)) (field_names fs).
Proof.
  induction fs as [|f rest IH]; intros n; simpl; [reflexivity|].
  destruct (String.eqb (f_name f) n); simpl; rewrite IH; reflexivity.
Qed.

(** X7: DELETE /api/tables/<t>/fields/<f>, when it succeeds, rebuilds [t]
    with the stored fields in order minus every field named [f]; the design
    rows are not touched. *)
Theorem delete_field_rebuilt_columns : forall t fname w d w1,
  designs_ok (w_designs w) ->
  lookup_design w t = Some d ->
  delete_field t fname w = (RMessage, w1) ->
  exists cols,
    lookup_table (w_catalog w1) t = Some cols /\
    map col_name cols = filter (fun m => negb (String.eqb m fname)) (field_names (d_fields d)) /\
    w_designs w1 = w_designs w.
Proof.
  intros t fname w d w1 Hok Hd H. pose proof (lookup_design_name _ _ _ Hok Hd) as Hn.
  unfold delete_field in H. rewrite Hd in H.
  set (d' := with_fields d (filter (fun g => negb (String.eqb (f_name g) fname)) (d_fields d))) in H.
  destruct (create_actual_table_spec d' w) as [_ [_ [Hds _]]].
  destruct (create_actual_table d' w) as [[|] w2] eqn:Ec; inversion H; subst w2.
  destruct (create_actual_table_columns _ _ _ Ec) as [cols [Hl Hc]].
  exists cols. split; [rewrite <- Hn; exact Hl|]. split; [|exact Hds].
  rewrite Hc. apply field_names_filter.
Qed.

Lemma delete_field_rebuilt_columns_witness :
  designs_ok (w_designs users_world) /\
  exists cols, lookup_table (w_catalog (snd (delete_field "users" "email" users_world))) "users"
               = Some cols /\ map col_name cols = ["id"].
Proof.
  assert (Hok : designs_ok (w_designs users_world)).
  { vm_compute. split; [constructor; [intros [] | constructor] | repeat constructor]. }
  split; [exact Hok|].
  destruct (delete_field_rebuilt_columns "users" "email" users_world users_design
              (snd (delete_field "users" "email" users_world)) Hok
              ltac:(vm_compute; reflexivity) ltac:(vm_compute; reflexivity))
    as [cols [Hl [Hc _]]].
  exists cols. split; [exact Hl | exact Hc].
Defined.

Lemma replace_first_found : forall n nf fs fs',
  replace_first n nf fs = (fs', true) ->
  exists pre old post,
    fs = app pre (old :: post) /\ f_name old = n /\ ~ In n (field_names pre) /\
    fs' = app pre (nf :: post).
Proof.
  induction fs as [|f rest IH]; intros fs' H; simpl in H; [discriminate|].
  destruct (String.eqb (f_name f) n) eqn:E.
  - inversion H. exists [], f, rest. apply String.eqb_eq in E.
    repeat split; auto.
  - destruct (replace_first n nf rest) as [rest' b] eqn:Er. inversion H; subst.
    destruct (IH rest' eq_refl) as [pre [old [post [-> [Ho [Hp ->]]]]]].
    exists (f :: pre), old, post. repeat split; auto.
    simpl. intros [Hf | Hp']; [|exact (Hp Hp')].
    rewrite Hf, String.eqb_refl in E. discriminate.
Qed.

Lemma replace_first_absent : forall n nf fs,
  ~ In n (field_names fs) -> replace_first n nf fs = (fs, false).
Proof.
  induction fs as [|f rest IH]; intros H; simpl; [reflexivity|].
  destruct (String.eqb_spec (f_name f) n) as [E|E].
  - exfalso. apply H. left. exact E.
  - rewrite IH; [reflexivity|]. intros Hin. apply H. right. exact Hin.
Qed.

(** X8: PUT /api/tables/<t>/fields/<f>, when it succeeds, rebuilds [t] with
    the stored fields in order, the first field named [f] replaced in place by
    the new field; the design rows are not touched. *)
Theorem update_field_in_place : forall t fname nf w d w1,
  designs_ok (w_designs w) ->
  lookup_design w t = Some d ->
  update_field t fname (Some nf) w = (RMessage, w1) ->
  exists pre old post cols,
    d_fields d = app pre (old :: post) /\ f_name old = fname /\
    ~ In fname (field_names pre) /\
    lookup_table (w_catalog w1) t = Some cols /\
    map col_name cols = field_names (app pre (nf :: post)) /\
    w_designs w1 = w_designs w.
Proof.
  intros t fname nf w d w1 Hok Hd H. pose proof (lookup_design_name _ _ _ Hok Hd) as Hn.
  unfold update_field in H. rewrite Hd in H.
  destruct (replace_first fname nf (d_fields d)) as [fs' [|]] eqn:Er; simpl in H;
    [|discriminate].
  destruct (replace_first_found _ _ _ _ Er) as [pre [old [post [Hfs [Ho [Hp Hfs']]]]]].
  destruct (create_actual_table_spec (with_fields d fs') w) as [_ [_ [Hds _]]].
  destruct (create_actual_table (with_fields d fs') w) as [[|] w2] eqn:Ec;
    inversion H; subst w2.
  destruct (create_actual_table_columns _ _ _ Ec) as [cols [Hl Hc]].
  exists pre, old, post, cols. repeat split; auto.
  - rewrite <- Hn. exact Hl.
  - rewrite Hc. simpl. rewrite Hfs'. reflexivity.
Qed.

Lemma update_field_in_place_witness :
  designs_ok (w_designs users_world) /\
  exists cols, lookup_table
                 (w_catalog (snd (update_field "users" "email" (Some text_email_field) users_world)))
                 "users" = Some cols /\ map col_name cols = ["id"; "email"].
Proof.
  assert (Hok : designs_ok (w_designs users_world)).
  { vm_compute. split; [constructor; [intros [] | constructor] | repeat constructor]. }
  split; [exact Hok|].
  destruct (update_field_in_place "users" "email" text_email_field users_world users_design
              (snd (update_field "users" "email" (Some text_email_field) users_world)) Hok
              ltac:(vm_compute; reflexivity) ltac:(vm_compute; reflexivity))
    as [pre [old [post [cols [Hfs [Ho [_ [Hl [Hc _]]]]]]]]].
  exists cols. split; [exact Hl|]. rewrite Hc.
  destruct pre as [|p pre'].
  - simpl in Hfs. injection Hfs as Ho' _. rewrite <- Ho' in Ho. discriminate Ho.
  - destruct pre' as [|p' pre''].
    + simpl in Hfs. injection Hfs as Hp _ Hpost. rewrite <- Hp, <- Hpost. reflexivity.
    + simpl in Hfs. injection Hfs as _ _ Hr. destruct pre''; discriminate Hr.
Defined.

(** X9: PUT /api/tables/<t>/fields/<f> for a field the stored design does
    not have answers 404 and runs no statement: both stores and the statement
    log are left as they were. *)
Theorem update_field_missing_field : forall t fname nf w d,
  lookup_design w t = Some d ->
  ~ In fname (field_names (d_fields d)) ->
  update_field t fname (Some nf) w = (RError 404 EFieldMissing, w).
Proof.
  intros t fname nf w d Hd Hnin. unfold update_field. rewrite Hd.
  rewrite replace_first_absent by exact Hnin. reflexivity.
Qed.

Lemma update_field_missing_field_witness :
  lookup_design users_world "users" = Some users_design /\
  update_field "users" "age" (Some age_field) users_world = (RError 404 EFieldMissing, users_world).
Proof.
  assert (Hd : lookup_design users_world "users" = Some users_design) by (vm_compute; reflexivity).
  split; [exact Hd|].
  apply (update_field_missing_field "users" "age" age_field users_world users_design Hd).
  simpl. intros [H | [H | []]]; discriminate H.
Defined.

(** X10: adding a field whose name the live table already has, in any
    letter case, is refused by the engine, and [add_field] answers 500 (not
    a duplicate-field error); neither store changes. *)
Theorem add_field_existing_column : forall t f w cols n,
  lookup_table (w_catalog w) t = Some cols ->
  In n (map col_name cols) ->
  same_ident n (f_name f) = true ->
  f_name f <> "" ->
  let '(r, w1) := add_field t (Some f) w in
  r = RError 500 EException /\ w_catalog w1 = w_catalog w /\ w_designs w1 = w_designs w.
Proof.
  intros t f w cols n Hcols Hin Hsame Hname. apply String.eqb_neq in Hname.
  unfold add_field. rewrite Hname, (lookup_table_exists _ _ _ Hcols). simpl negb. cbv iota.
  assert (Hstep : engine_step (w_catalog w) (SAddColumn t (field_clause f)) = None).
  { unfold engine_step. rewrite Hcols.
    assert (Hex : existsb (fun k => same_ident (col_name k) (cd_name (field_clause f))) cols
                  = true).
    { apply in_map_iff in Hin as [k [Hk Hin]]. apply existsb_exists.
      exists k. split; [exact Hin|]. rewrite Hk. exact Hsame. }
    rewrite Hex. reflexivity. }
  assert (Hx : exec_ddl w (SAddColumn t (field_clause f))
               = (false, log_stmt w (SAddColumn t (field_clause f)))).
  { unfold exec_ddl. change (w_catalog (log_stmt w (SAddColumn t (field_clause f))))
                      with (w_catalog w). rewrite Hstep. reflexivity. }
  rewrite Hx. repeat split.
Qed.

Lemma add_field_existing_column_witness :
  fst (add_field "users" (Some (plain_field "EMAIL" "TEXT")) users_world)
  = RError 500 EException.
Proof.
  pose proof (add_field_existing_column "users" (plain_field "EMAIL" "TEXT") users_world
                [mk_column "id" "INTEGER" false None 1; mk_column "email" "TEXT" true None 0]
                "email" ltac:(vm_compute; reflexivity) ltac:(simpl; right; left; reflexivity)
                ltac:(vm_compute; reflexivity) ltac:(discriminate)) as H.
  destruct (add_field "users" (Some (plain_field "EMAIL" "TEXT")) users_world) as [r w1].
  exact (proj1 H).
Defined.

Lemma lookup_replace_design : forall ds t d d',
  find (fun e => String.eqb (fst e) t) ds = Some (t, d) ->
  find (fun e => String.eqb (fst e) t) (replace_design ds t d') = Some (t, d').
Proof.
  induction ds as [|[k x] rest IH]; intros t d d' H; simpl in *; [discriminate|].
  destruct (String.eqb k t) eqn:E; simpl.
  - rewrite String.eqb_refl. reflexivity.
  - rewrite E. eapply IH. exact H.
Qed.

(** X11: on a table with a stored design, a field whose ALTER TABLE the
    engine accepts is appended both to the live table and, at the end, to
    the stored field list (when the design database takes the write). *)
Theorem add_field_appends_to_design : forall t f w cat' d,
  lookup_design w t = Some d ->
  w_store_ok w = true ->
  f_name f <> "" ->
  engine_step (w_catalog w) (SAddColumn t (field_clause f)) = Some cat' ->
  let '(r, w1) := add_field t (Some f) w in
  r = RMessage /\
  w_catalog w1 = cat' /\
  (exists cols, lookup_table (w_catalog w) t = Some cols /\
                lookup_table cat' t = Some (app cols [column_of [] (field_clause f)])) /\
  lookup_design w1 t = Some (with_fields d (app (d_fields d) [f])).
Proof.
  intros t f w cat' d Hd Hs Hname Hstep.
  destruct (engine_add_shape _ _ _ _ Hstep) as [cols [Hcols Hcat]].
  apply String.eqb_neq in Hname.
  unfold add_field. rewrite Hname, (lookup_table_exists _ _ _ Hcols). simpl negb. cbv iota.
  assert (Hx : exec_ddl w (SAddColumn t (field_clause f))
               = (true, set_catalog (log_stmt w (SAddColumn t (field_clause f))) cat')).
  { unfold exec_ddl. change (w_catalog (log_stmt w (SAddColumn t (field_clause f))))
                      with (w_catalog w). rewrite Hstep. reflexivity. }
  rewrite Hx. unfold update_design_after_field_change.
  assert (Hl : lookup_design (set_catalog (log_stmt w (SAddColumn t (field_clause f))) cat') t
               = Some d) by exact Hd.
  rewrite Hl. simpl. rewrite Hs. simpl. split; [reflexivity|]. split; [reflexivity|]. split.
  - exists cols. split; [exact Hcols|]. subst cat'. eapply lookup_set_table. exact Hcols.
  - unfold lookup_design in *. simpl.
    destruct (find _ (w_designs w)) as [[k x]|] eqn:Ef; [|discriminate].
    inversion Hd; subst x.
    pose proof (find_some _ _ Ef) as [_ Hk]. simpl in Hk. apply String.eqb_eq in Hk. subst k.
    erewrite lookup_replace_design; [reflexivity | exact Ef].
Qed.

Lemma add_field_appends_to_design_witness :
  lookup_design users_world "users" = Some users_design /\
  fst (add_field "users" (Some note_field) users_world) = RMessage.
Proof.
  assert (Hd : lookup_design users_world "users" = Some users_design) by (vm_compute; reflexivity).
  split; [exact Hd|].
  pose proof (add_field_appends_to_design "users" note_field users_world
                (set_table (w_catalog users_world) "users"
                   (app [mk_column "id" "INTEGER" false None 1; mk_column "email" "TEXT" true None 0]
                        [column_of [] (field_clause note_field)]))
                users_design Hd eq_refl ltac:(discriminate)
                ltac:(vm_compute; reflexivity)) as H.
  destruct (add_field "users" (Some note_field) users_world) as [r w1].
  exact (proj1 H).
Defined.

(** X12: [execute_sql] on an accepted SELECT answers one dict per fetched
    row; each dict has no repeated key and each of its entries pairs a
    result column with the value at that position; when the column names
    are distinct the dict is exactly the columns zipped with the row. *)
Theorem execute_sql_select_rows : forall run sql c,
  sql <> "" ->
  run sql = Some c ->
  is_select sql = true ->
  execute_sql run (Some sql) = RQuery (map (format_row (cur_description c)) (cur_rows c))
                                      (cur_description c) /\
  (forall row, In row (cur_rows c) ->
     NoDup (map fst (format_row (cur_description c) row)) /\
     (forall k v, In (k, v) (format_row (cur_description c) row) ->
                  In (k, v) (combine (cur_description c) row)) /\
     (NoDup (cur_description c) ->
      format_row (cur_description c) row = combine (cur_description c) row)).
Proof.
  intros run sql c Hne Hrun Hsel. split.
  - unfold execute_sql. apply String.eqb_neq in Hne. rewrite Hne, Hrun, Hsel. reflexivity.
  - intros row _. unfold format_row.
    destruct (format_row_fold (combine (cur_description c) row) [] (NoDup_nil _)) as [Hn Hin].
    split; [exact Hn|]. split.
    + intros k v H. apply Hin in H as [H | []]. exact H.
    + intros Hd. rewrite format_row_fold_fresh; [reflexivity | apply combine_keys_nodup; exact Hd |].
      intros k _ [].
Qed.

Lemma execute_sql_select_rows_witness :
  execute_sql (fun _ => Some (mk_cursor ["a"; "a"; "b"] [[SInt 1; SInt 2; SText "x"]] (-1)))
              (Some "select a, a, b from t")
  = RQuery [[("a", SInt 2); ("b", SText "x")]] ["a"; "a"; "b"].
Proof.
  destruct (execute_sql_select_rows
              (fun _ => Some (mk_cursor ["a"; "a"; "b"] [[SInt 1; SInt 2; SText "x"]] (-1)))
              "select a, a, b from t" _ ltac:(discriminate) eq_refl
              ltac:(vm_compute; reflexivity)) as [H _].
  rewrite H. vm_compute. reflexivity.
Defined.
